(** * Multi-asset performance chart: rebasing transform and data preparation

    A shallow embedding of [main.py]: the preparation of the price table
    (lines 34-38) and the callback [update_graph] (lines 105-152), with the
    pandas and plotly operations they call.

    - A cell of a frame is a binary64 number, as in a pandas [float64]
      column; a missing value is NaN.  The arithmetic is the IEEE 754 one
      of [SpecFloat] at precision 53 and [emax = 1024].
    - A frame is an index of calendar dates and a list of named columns.
    - The callback runs in a store of Python objects: every pandas call
      allocates its result, and the only object written to after its
      creation is the figure. *)

From Stdlib Require Import Ascii String.
From stdpp Require Import base list strings gmap.
From Stdlib Require Import ZArith QArith Lia.
From Stdlib Require Import Sorting.Permutation.
From Stdlib Require Import Floats.SpecFloat.
Import ListNotations.

Local Open Scope Z_scope.
Local Open Scope list_scope.

(** ** Binary64 arithmetic *)

Module F64.

Definition prec : Z := 53.
Definition emax : Z := 1024.

Abbreviation float := spec_float.

Definition nan : float := S754_nan.
Definition zero : float := S754_zero false.

(** A Python [int] literal used as a float operand ([1], [100]), and the
    float literals of the examples. *)
Definition of_Z (z : Z) : float := binary_normalize prec emax z 0 false.

Definition div : float -> float -> float := SFdiv prec emax.
Definition sub : float -> float -> float := SFsub prec emax.
Definition mul : float -> float -> float := SFmul prec emax.

(** [pandas.isna] on a float: only NaN is missing, an infinity is not. *)
Definition is_nan (x : float) : bool :=
  match x with S754_nan => true | _ => false end.

Definition is_zero (x : float) : bool :=
  match x with S754_zero _ => true | _ => false end.

Definition is_inf (x : float) : bool :=
  match x with S754_infinity _ => true | _ => false end.

Definition is_finite (x : float) : bool :=
  match x with S754_zero _ | S754_finite _ _ _ => true | _ => false end.

(** A finite number different from zero. *)
Definition is_number (x : float) : bool :=
  match x with S754_finite _ _ _ => true | _ => false end.

(** The value of a finite float as a rational. *)
Definition to_Q (x : float) : Q :=
  match x with
  | S754_finite s m e =>
      let q := (inject_Z (Zpos m) * Qpower 2 e)%Q in
      if s then Qopp q else q
  | _ => 0%Q
  end.

(** [2^k] as a binary64 number, for [-1022 <= k <= 1023]. *)
Definition pow2 (k : Z) : float := S754_finite false (2 ^ 52) (k - 52).

End F64.

Abbreviation float := F64.float.

(** ** Calendar dates *)

(** A [pandas.Timestamp] of a daily index, as a calendar date. *)
Record Timestamp := mkTimestamp { year : nat; month : nat; day : nat }.

Definition ts_compare (a b : Timestamp) : comparison :=
  match Nat.compare (year a) (year b) with
  | Eq => match Nat.compare (month a) (month b) with
          | Eq => Nat.compare (day a) (day b)
          | c => c
          end
  | c => c
  end.

Definition ts_ltb (a b : Timestamp) : bool :=
  match ts_compare a b with Lt => true | _ => false end.

Definition ts_leb (a b : Timestamp) : bool :=
  match ts_compare a b with Gt => false | _ => true end.

(** [strftime("%Y-%m-%d")]: four digits, two digits, two digits. *)
Definition digit (n : nat) : ascii := ascii_of_nat (48 + n mod 10).

Definition is_digit (c : ascii) : bool :=
  (48 <=? nat_of_ascii c)%nat && (nat_of_ascii c <=? 57)%nat.

Definition strftime_Ymd (t : Timestamp) : string :=
  String (digit (year t / 1000)) (String (digit (year t / 100))
  (String (digit (year t / 10)) (String (digit (year t))
  (String "-" (String (digit (month t / 10)) (String (digit (month t))
  (String "-" (String (digit (day t / 10)) (String (digit (day t))
  EmptyString))))))))).

(** ** Frames *)

Definition Column : Type := string * list float.

Record DataFrame := mkFrame {
  index : list Timestamp;
  columns : list Column
}.

(** A row of a frame: one value per column label. *)
Definition Series : Type := list (string * float).

(** Every column has one cell per index entry. *)
Definition frame_wf (d : DataFrame) : Prop :=
  Forall (fun c : Column => length (snd c) = length (index d)) (columns d).

Definition frame_wfb (d : DataFrame) : bool :=
  forallb (fun c : Column => Nat.eqb (length (snd c)) (length (index d))) (columns d).

Definition map_cells (f : float -> float) (d : DataFrame) : DataFrame :=
  mkFrame (index d) (List.map (fun c : Column => (fst c, List.map f (snd c))) (columns d)).

(** ** Data preparation (lines 34-38) *)

(** [DataFrame.ffill]: down each column, a missing cell takes the last
    value seen that is not missing; before the first one it stays missing. *)
Fixpoint ffill_from (last : float) (xs : list float) : list float :=
  match xs with
  | [] => []
  | x :: rest =>
      if F64.is_nan x then last :: ffill_from last rest
      else x :: ffill_from x rest
  end.

Definition ffill_column (xs : list float) : list float := ffill_from F64.nan xs.

Definition ffill (d : DataFrame) : DataFrame :=
  mkFrame (index d)
          (List.map (fun c : Column => (fst c, ffill_column (snd c))) (columns d)).

(** [dropna(axis=1, how="all")]: a column is dropped when all its cells
    are missing. *)
Definition all_na (xs : list float) : bool := forallb F64.is_nan xs.

Definition dropna_all (d : DataFrame) : DataFrame :=
  mkFrame (index d)
          (List.filter (fun c : Column => negb (all_na (snd c))) (columns d)).

(** [sort_index]: the rows are reordered by the positions that sort the
    index, [argsort] followed by [take]. The sort is written as a stable
    insertion sort. With pairwise different dates the sorted order is
    unique and this is the order pandas gives; pandas' sort is not stable,
    so among rows of equal dates the order may differ, and the properties
    below either assume different dates or do not depend on the order. *)
Fixpoint insert_key (x : Timestamp * nat) (l : list (Timestamp * nat))
  : list (Timestamp * nat) :=
  match l with
  | [] => [x]
  | y :: rest =>
      if ts_leb (fst x) (fst y) then x :: y :: rest
      else y :: insert_key x rest
  end.

Definition sort_keys (l : list (Timestamp * nat)) : list (Timestamp * nat) :=
  List.fold_right insert_key [] l.

Definition argsort (idx : list Timestamp) : list nat :=
  List.map snd (sort_keys (List.combine idx (List.seq 0 (length idx)))).

Definition np_take {A} (dflt : A) (positions : list nat) (xs : list A) : list A :=
  List.map (fun i => List.nth i xs dflt) positions.

Definition sort_index (d : DataFrame) : DataFrame :=
  let indexer := argsort (index d) in
  mkFrame (List.map fst (sort_keys (List.combine (index d) (List.seq 0 (length (index d))))))
          (List.map (fun c : Column => (fst c, np_take F64.nan indexer (snd c))) (columns d)).

(** Line 35, applied to the frame of closing prices with its columns
    renamed. *)
Definition prepare (data : DataFrame) : DataFrame :=
  sort_index (dropna_all (ffill data)).

Definition date_list (data : DataFrame) : list Timestamp := index data.

(** ** The pandas operations of the callback *)

(** [data.loc[start_date:end_date]] on a sorted index: the rows from the
    first date not before [start_date] to the last date not after
    [end_date], both found by [searchsorted]. *)
Fixpoint searchsorted_left (idx : list Timestamp) (key : Timestamp) : nat :=
  match idx with
  | [] => 0%nat
  | d :: rest => if ts_ltb d key then S (searchsorted_left rest key) else 0%nat
  end.

Fixpoint searchsorted_right (idx : list Timestamp) (key : Timestamp) : nat :=
  match idx with
  | [] => 0%nat
  | d :: rest => if ts_leb d key then S (searchsorted_right rest key) else 0%nat
  end.

Definition slice {A} (lo hi : nat) (xs : list A) : list A :=
  List.firstn (hi - lo) (List.skipn lo xs).

Definition loc_slice (start_date end_date : Timestamp) (d : DataFrame) : DataFrame :=
  let lo := searchsorted_left (index d) start_date in
  let hi := searchsorted_right (index d) end_date in
  mkFrame (slice lo hi (index d))
          (List.map (fun c : Column => (fst c, slice lo hi (snd c))) (columns d)).

(** [filtered.iloc[0]]: the first row; an [IndexError] on a frame without
    rows. *)
Definition iloc0 (d : DataFrame) : option Series :=
  match index d with
  | [] => None
  | _ :: _ =>
      Some (List.map (fun c : Column => (fst c, List.hd F64.nan (snd c))) (columns d))
  end.

(** [filtered / baseline]: each column is divided by the entry of the row
    under the same label. The row is a row of the same frame, so the
    labels are those of the columns, in their order. *)
Definition div_row (d : DataFrame) (row : Series) : DataFrame :=
  mkFrame (index d)
          (List.map (fun cb : Column * (string * float) =>
                       (fst (fst cb),
                        List.map (fun v => F64.div v (snd (snd cb))) (snd (fst cb))))
                    (List.combine (columns d) row)).

Definition sub_scalar (d : DataFrame) (k : float) : DataFrame :=
  map_cells (fun v => F64.sub v k) d.

Definition mul_scalar (d : DataFrame) (k : float) : DataFrame :=
  map_cells (fun v => F64.mul v k) d.

(** [reset_index().melt(id_vars='Date', var_name='Asset',
    value_name='Performance (%)')]: one row per cell, column after
    column. *)
Record LongRow := mkLongRow {
  Date : Timestamp;
  Asset : string;
  Performance : float
}.

Definition melt (d : DataFrame) : list LongRow :=
  List.flat_map
    (fun c : Column =>
       List.map (fun dv : Timestamp * float => mkLongRow (fst dv) (fst c) (snd dv))
                (List.combine (index d) (snd c)))
    (columns d).

(** ** Figures and components *)

Record Trace := mkTrace {
  trace_name : string;
  trace_x : list Timestamp;
  trace_y : list float;
  hovertemplate : string
}.

Record HLine := mkHLine { hline_y : Z; line_dash : string; line_color : string }.

Record Margin := mkMargin { margin_l : nat; margin_r : nat; margin_t : nat; margin_b : nat }.

Record Figure := mkFigure {
  title : string;
  template : string;
  traces : list Trace;
  yaxis_ticksuffix : string;
  hlines : list HLine;
  hovermode : string;
  legend_title_text : string;
  margin : option Margin
}.

(** The values of a column in order of first appearance. *)
Fixpoint unique (names : list string) : list string :=
  match names with
  | [] => []
  | a :: rest => a :: List.filter (fun c => negb (String.eqb a c)) (unique rest)
  end.

Definition rows_of (a : string) (rows : list LongRow) : list LongRow :=
  List.filter (fun row => String.eqb a (Asset row)) rows.

(** [px.line(df, x='Date', y='Performance (%)', color='Asset', ...)]: one
    line per asset, in order of first appearance, made of the rows of that
    asset. *)
Definition px_line (rows : list LongRow) (title : string) (template : string) : Figure :=
  mkFigure title template
    (List.map (fun a =>
                 mkTrace a
                         (List.map Date (rows_of a rows))
                         (List.map Performance (rows_of a rows))
                         ("Asset=" +:+ a +:+ "<br>Date=%{x}<br>Performance (%)=%{y}<extra></extra>"))
              (unique (List.map Asset rows)))
    "" [] "closest" "Asset" None.

Definition update_traces (hover : string) (f : Figure) : Figure :=
  mkFigure (title f) (template f)
    (List.map (fun tr => mkTrace (trace_name tr) (trace_x tr) (trace_y tr) hover) (traces f))
    (yaxis_ticksuffix f) (hlines f) (hovermode f) (legend_title_text f) (margin f).

Definition update_yaxes (ticksuffix : string) (f : Figure) : Figure :=
  mkFigure (title f) (template f) (traces f) ticksuffix
    (hlines f) (hovermode f) (legend_title_text f) (margin f).

(** [fig.add_hline]: the line goes on the subplots that are not empty
    ([exclude_empty_subplots] is [True] unless given), so a figure without
    any trace or line gets none. *)
Definition add_hline (h : HLine) (f : Figure) : Figure :=
  match traces f, hlines f with
  | [], [] => f
  | _, _ =>
      mkFigure (title f) (template f) (traces f) (yaxis_ticksuffix f)
        (hlines f ++ [h]) (hovermode f) (legend_title_text f) (margin f)
  end.

Definition update_layout (hm lt : string) (m : Margin) (f : Figure) : Figure :=
  mkFigure (title f) (template f) (traces f) (yaxis_ticksuffix f)
    (hlines f) hm lt (Some m).

(** Dash components: [html.Span] with a style and its children. *)
#[local] Set Warnings "-register-all".
Inductive Html :=
| Text (s : string)
| Span (style : list (string * string)) (children : list Html).

Fixpoint text_content (h : Html) : string :=
  match h with
  | Text s => s
  | Span _ children =>
      (fix go (cs : list Html) : string :=
         match cs with
         | [] => ""
         | c :: rest => text_content c +:+ go rest
         end) children
  end.

(** ** The store of Python objects *)

Inductive object :=
| ObjFrame (d : DataFrame)
| ObjSeries (s : Series)
| ObjLong (rows : list LongRow)
| ObjFigure (f : Figure).

Abbreviation store := (list object).
Definition ref : Type := nat.

(** A computation runs in the store and returns a value or raises; what
    it allocated before raising stays in the store. *)
Definition Py (A : Type) : Type := store -> option A * store.

Definition ret {A} (a : A) : Py A := fun st => (Some a, st).

Definition bind {A B} (c : Py A) (k : A -> Py B) : Py B :=
  fun st => match c st with
            | (Some a, st') => k a st'
            | (None, st') => (None, st')
            end.

Definition raise {A} : Py A := fun st => (None, st).

Definition lift {A} (o : option A) : Py A :=
  match o with Some a => ret a | None => raise end.

Declare Scope py_scope.
Delimit Scope py_scope with py.
Notation "v <- c ;; k" := (bind c (fun v => k))
  (at level 100, c at next level, right associativity) : py_scope.
Notation "c ;;; k" := (bind c (fun _ => k))
  (at level 100, right associativity) : py_scope.

Definition alloc (o : object) : Py ref :=
  fun st => (Some (length st), st ++ [o]).

Definition get_frame (p : ref) : Py DataFrame :=
  fun st => match st !! p with
            | Some (ObjFrame d) => (Some d, st)
            | _ => (None, st)
            end.

Definition get_series (p : ref) : Py Series :=
  fun st => match st !! p with
            | Some (ObjSeries s) => (Some s, st)
            | _ => (None, st)
            end.

Definition get_long (p : ref) : Py (list LongRow) :=
  fun st => match st !! p with
            | Some (ObjLong rows) => (Some rows, st)
            | _ => (None, st)
            end.

(** A method of a figure that updates it in place. *)
Definition on_figure (p : ref) (f : Figure -> Figure) : Py unit :=
  fun st => match st !! p with
            | Some (ObjFigure g) => (Some tt, <[p := ObjFigure (f g)]> st)
            | _ => (None, st)
            end.

(** ** The callback (lines 105-152) *)

(** The two indices are positions counted from the first date, as the
    slider sends them; [update_graph_int] below reads any Python [int]. *)

Definition update_graph (data : ref) (selected_range : nat * nat) : Py (ref * Html) :=
  (let '(start_idx, end_idx) := selected_range in
   table <- get_frame data ;;
   start_date <- lift (date_list table !! start_idx) ;;
   end_date <- lift (date_list table !! end_idx) ;;
   filtered <- alloc (ObjFrame (loc_slice start_date end_date table)) ;;
   filtered_v <- get_frame filtered ;;
   row <- lift (iloc0 filtered_v) ;;
   baseline <- alloc (ObjSeries row) ;;
   baseline_v <- get_series baseline ;;
   quotient <- alloc (ObjFrame (div_row filtered_v baseline_v)) ;;
   quotient_v <- get_frame quotient ;;
   shifted <- alloc (ObjFrame (sub_scalar quotient_v (F64.of_Z 1))) ;;
   shifted_v <- get_frame shifted ;;
   performance <- alloc (ObjFrame (mul_scalar shifted_v (F64.of_Z 100))) ;;
   performance_v <- get_frame performance ;;
   df <- alloc (ObjLong (melt performance_v)) ;;
   df_v <- get_long df ;;
   fig <- alloc (ObjFigure (px_line df_v
                              ("Performance from " +:+ strftime_Ymd start_date)
                              "plotly_dark")) ;;
   on_figure fig (update_traces "%{y:.2f}%<br>%{x|%Y-%m-%d}") ;;;
   on_figure fig (update_yaxes "%") ;;;
   on_figure fig (add_hline (mkHLine 0 "dash" "gray")) ;;;
   on_figure fig (update_layout "x unified" "Assets" (mkMargin 20 20 60 20)) ;;;
   let range_text :=
     Span [] [ Span [("color", "#1f77b4"); ("fontWeight", "bold")]
                    [Text (strftime_Ymd start_date)];
               Span [] [Text "  →  "];
               Span [("color", "#1f77b4"); ("fontWeight", "bold")]
                    [Text (strftime_Ymd end_date)] ] in
   ret (fig, range_text))%py.

(** What the caller of the callback receives: the figure behind the
    returned reference, and the label. *)
Definition outputs (res : option (ref * Html) * store) : option (Figure * Html) :=
  match res with
  | (Some (fig, range_text), st) =>
      match st !! fig with
      | Some (ObjFigure f) => Some (f, range_text)
      | _ => None
      end
  | (None, _) => None
  end.

(** A render of a price table: the callback in a store that holds the
    table alone. *)
Definition render (selected_range : nat * nat) (table : DataFrame)
  : option (Figure * Html) :=
  outputs (update_graph 0%nat selected_range [ObjFrame table]).

(** ** Closed forms and invariants used by the statements *)

(** One cell of line 115: [(value / baseline - 1) * 100]. *)
Definition perf_cell (value baseline : float) : float :=
  F64.mul (F64.sub (F64.div value baseline) (F64.of_Z 1)) (F64.of_Z 100).

(** The figure of lines 125-143 for a performance frame. *)
Definition chart_of (start_date : Timestamp) (performance : DataFrame) : Figure :=
  update_layout "x unified" "Assets" (mkMargin 20 20 60 20)
    (add_hline (mkHLine 0 "dash" "gray")
       (update_yaxes "%"
          (update_traces "%{y:.2f}%<br>%{x|%Y-%m-%d}"
             (px_line (melt performance)
                      ("Performance from " +:+ strftime_Ymd start_date)
                      "plotly_dark")))).

(** The label of lines 146-150. *)
Definition range_text_of (start_date end_date : Timestamp) : Html :=
  Span [] [ Span [("color", "#1f77b4"); ("fontWeight", "bold")]
                 [Text (strftime_Ymd start_date)];
            Span [] [Text "  →  "];
            Span [("color", "#1f77b4"); ("fontWeight", "bold")]
                 [Text (strftime_Ymd end_date)] ].

(** The performance frame of a render: line 115 on the frame of line
    111. *)
Definition rebase (filtered : DataFrame) : option DataFrame :=
  match iloc0 filtered with
  | Some baseline =>
      Some (mul_scalar (sub_scalar (div_row filtered baseline) (F64.of_Z 1)) (F64.of_Z 100))
  | None => None
  end.

Definition performance_of (selected_range : nat * nat) (table : DataFrame)
  : option DataFrame :=
  match date_list table !! fst selected_range, date_list table !! snd selected_range with
  | Some start_date, Some end_date => rebase (loc_slice start_date end_date table)
  | _, _ => None
  end.

(** The two outputs of a render as a function of the range and the table. *)
Definition render_value (selected_range : nat * nat) (table : DataFrame)
  : option (Figure * Html) :=
  match date_list table !! fst selected_range, date_list table !! snd selected_range with
  | Some start_date, Some end_date =>
      match rebase (loc_slice start_date end_date table) with
      | Some performance =>
          Some (chart_of start_date performance, range_text_of start_date end_date)
      | None => None
      end
  | _, _ => None
  end.

(** The dates of a price table increase strictly. *)
Fixpoint strictly_increasing (idx : list Timestamp) : bool :=
  match idx with
  | [] => true
  | a :: rest =>
      match rest with
      | [] => true
      | b :: _ => ts_ltb a b && strictly_increasing rest
      end
  end.

(** The column labels are pairwise different. *)
Fixpoint distinct (names : list string) : bool :=
  match names with
  | [] => true
  | a :: rest => negb (existsb (String.eqb a) rest) && distinct rest
  end.

(** The invariants of a price table: one cell per date in every column,
    dates that increase strictly, and unique display names. *)
Definition price_table (d : DataFrame) : bool :=
  frame_wfb d && strictly_increasing (index d) && distinct (List.map fst (columns d)).

(** A selected range of the slider: [0 <= start <= end <= last]. *)
Definition valid_range (selected_range : nat * nat) (d : DataFrame) : Prop :=
  (fst selected_range <= snd selected_range)%nat /\
  (snd selected_range < length (index d))%nat.

(** The rows [start .. end] of a column or of the index. *)
Definition window {A} (selected_range : nat * nat) (xs : list A) : list A :=
  slice (fst selected_range) (S (snd selected_range)) xs.

(** The prices of one column multiplied by a constant. *)
Definition scale_column (c : float) (label : string) (d : DataFrame) : DataFrame :=
  mkFrame (index d)
          (List.map (fun col : Column =>
                       if String.eqb label (fst col)
                       then (fst col, List.map (fun v => F64.mul v c) (snd col))
                       else col)
                    (columns d)).

(** A price that a multiplication by [2^k] only moves the exponent of:
    zero, missing, infinite, or a normal number that stays normal. *)
Definition scales_by (k : Z) (v : float) : bool :=
  match v with
  | S754_finite _ m e =>
      (Zpos (digits2_pos m) =? F64.prec) && (-1074 <=? e + k) && (e + k <=? 971)
  | _ => true
  end.

(** ** The tables of the examples *)

Definition d27 : Timestamp := mkTimestamp 2021 9 27.
Definition d28 : Timestamp := mkTimestamp 2021 9 28.
Definition d29 : Timestamp := mkTimestamp 2021 9 29.

Definition gold_table : DataFrame :=
  mkFrame [d27; d28; d29]
          [("Gold", [F64.of_Z 100; F64.of_Z 110; F64.of_Z 90])].

(** A column rebased on its first cell, and the line of the chart that
    [update_graph] draws for a column of the table. *)
Definition rebased_column (c : Column) : Column :=
  (fst c, List.map (fun v => perf_cell v (List.hd F64.nan (snd c))) (snd c)).

Definition line_of (selected_range : nat * nat) (table : DataFrame) (c : Column) : Trace :=
  mkTrace (fst c)
          (window selected_range (index table))
          (snd (rebased_column (fst c, window selected_range (snd c))))
          "%{y:.2f}%<br>%{x|%Y-%m-%d}".

(** The rows of the long frame that come from one column. *)
Definition long_rows (idx : list Timestamp) (c : Column) : list LongRow :=
  List.map (fun dv : Timestamp * float => mkLongRow (fst dv) (fst c) (snd dv))
           (List.combine idx (snd c)).

(** A raw frame in which one instrument has no price on the first day,
    and the table prepared from it. *)
Definition late_raw : DataFrame :=
  mkFrame [d27; d28; d29]
          [("Gold", [F64.of_Z 100; F64.nan; F64.of_Z 90]);
           ("Solana", [F64.nan; F64.of_Z 5; F64.of_Z 6]);
           ("Unlisted", [F64.nan; F64.nan; F64.nan])].

Definition late_table : DataFrame :=
  mkFrame [d27; d28; d29]
          [("Gold", [F64.of_Z 100; F64.of_Z 100; F64.of_Z 90]);
           ("Solana", [F64.nan; F64.of_Z 5; F64.of_Z 6])].

(** A table in which one price is zero on the first day. *)
Definition zero_table : DataFrame :=
  mkFrame [d27; d28; d29]
          [("Gold", [F64.of_Z 100; F64.of_Z 110; F64.of_Z 90]);
           ("Token", [F64.of_Z 0; F64.of_Z 5; F64.of_Z 0])].

(** The first value of every line of a chart, by asset. *)
Definition first_values (out : option (Figure * Html)) : option (list (string * option float)) :=
  option_map (fun o => List.map (fun tr => (trace_name tr, trace_y tr !! 0%nat))
                                (traces (fst o)))
             out.

(** The values of every line of a chart, by asset. *)
Definition series (out : option (Figure * Html)) : option (list (string * list float)) :=
  option_map (fun o => List.map (fun tr => (trace_name tr, trace_y tr)) (traces (fst o)))
             out.

(** A text of the form [YYYY-MM-DD], and the date it spells. *)
Definition is_Ymd (s : string) : bool :=
  match s with
  | String y1 (String y2 (String y3 (String y4 (String h1
    (String m1 (String m2 (String h2 (String d1 (String d2 EmptyString))))))))) =>
      is_digit y1 && is_digit y2 && is_digit y3 && is_digit y4
      && Ascii.eqb h1 "-" && is_digit m1 && is_digit m2
      && Ascii.eqb h2 "-" && is_digit d1 && is_digit d2
  | _ => false
  end.

Definition digit_value (c : ascii) : nat := (nat_of_ascii c - 48)%nat.

Definition parse_Ymd (s : string) : option Timestamp :=
  match s with
  | String y1 (String y2 (String y3 (String y4 (String _
    (String m1 (String m2 (String _ (String d1 (String d2 EmptyString))))))))) =>
      Some (mkTimestamp
              (1000 * digit_value y1 + 100 * digit_value y2
               + 10 * digit_value y3 + digit_value y4)
              (10 * digit_value m1 + digit_value m2)
              (10 * digit_value d1 + digit_value d2))
  | _ => None
  end.

(** A calendar date that [pandas.Timestamp] can hold: a year of four
    digits, a month and a day. *)
Definition calendar_date (t : Timestamp) : bool :=
  (1 <=? year t / 1000)%nat && (year t / 1000 <=? 9)%nat
  && (1 <=? month t)%nat && (month t <=? 12)%nat
  && (1 <=? day t)%nat && (day t <=? 31)%nat.

(** The prices 3 and 7, and the constant 0.1. *)
Definition small_table : DataFrame :=
  mkFrame [d27; d28] [("Gold", [F64.of_Z 3; F64.of_Z 7])].

Definition one_tenth : float := F64.div (F64.of_Z 1) (F64.of_Z 10).

(** ** The start of the script (lines 11-32, 80-89) *)

(** The dict literal of lines 11-19, in its order. *)
Definition tickers : list (string * string) :=
  [("S&P 500", "^GSPC"); ("Dow Jones", "^DJI"); ("NASDAQ", "^IXIC");
   ("Gold", "GC=F"); ("Solana", "SOL-USD"); ("Bitcoin", "BTC-USD");
   ("Ethereum", "ETH-USD")].

(** [dict(pairs)]: a later pair replaces an earlier one with the same
    key. *)
Definition dict (pairs : list (string * string)) : gmap string string :=
  list_to_map (reverse pairs).

(** Line 31: [dict(zip(list(tickers.values()), tickers.keys()))]. *)
Definition symbol_to_name (tickers : list (string * string)) : gmap string string :=
  dict (List.combine (List.map snd tickers) (List.map fst tickers)).

(** [data.rename(columns=mapping)]: a label that is a key of the mapping
    is replaced, any other label is kept. *)
Definition rename (mapping : gmap string string) (d : DataFrame) : DataFrame :=
  mkFrame (index d)
          (List.map (fun c : Column =>
                       (match mapping !! fst c with
                        | Some new_label => new_label
                        | None => fst c
                        end, snd c))
                    (columns d)).

(** What [yf.download] returns: columns labelled by (field, symbol) pairs
    (a [MultiIndex]) or by fields alone. *)
Inductive RawColumns :=
| MultiIndex (cols : list ((string * string) * list float))
| FlatIndex (cols : list (string * list float)).

Record RawFrame := mkRaw {
  raw_index : list Timestamp;
  raw_columns : RawColumns
}.

(** Lines 25-28: [raw['Close']] on a [MultiIndex], the columns of the
    field with the symbols as labels; [raw[['Close']]] otherwise, the
    columns labelled 'Close'. A [KeyError] when there is none. *)
Definition select_close (raw : RawFrame) : option DataFrame :=
  match raw_columns raw with
  | MultiIndex cols =>
      match List.filter (fun c => String.eqb (fst (fst c)) "Close") cols with
      | [] => None
      | selected =>
          Some (mkFrame (raw_index raw)
                        (List.map (fun c => (snd (fst c), snd c)) selected))
      end
  | FlatIndex cols =>
      match List.filter (fun c => String.eqb (fst c) "Close") cols with
      | [] => None
      | selected => Some (mkFrame (raw_index raw) selected)
      end
  end.

(** Lines 25-35: the table of the application from the downloaded frame. *)
Definition load_data (raw : RawFrame) : option DataFrame :=
  match select_close raw with
  | Some data => Some (prepare (rename (symbol_to_name tickers) data))
  | None => None
  end.

(** The range slider of lines 80-89. *)
Record RangeSlider := mkRangeSlider {
  slider_min : Z;
  slider_max : Z;
  slider_value : Z * Z;
  allowCross : bool
}.

Definition date_range_slider (date_list : list Timestamp) : RangeSlider :=
  mkRangeSlider 0 (Z.of_nat (length date_list) - 1)
                (0, Z.of_nat (length date_list) - 1) false.

(** A pair of handles that the slider can hold: both within its bounds,
    and not crossed when crossing is not allowed. *)
Definition slider_holds (s : RangeSlider) (v : Z * Z) : Prop :=
  slider_min s <= fst v <= slider_max s /\
  slider_min s <= snd v <= slider_max s /\
  (allowCross s = false -> fst v <= snd v).

(** ** Predicates of the further properties *)

(** Dates in ascending order, equal dates allowed. *)
Fixpoint nondecreasing (idx : list Timestamp) : bool :=
  match idx with
  | [] => true
  | a :: rest =>
      match rest with
      | [] => true
      | b :: _ => ts_leb a b && nondecreasing rest
      end
  end.

Definition ts_eqb (a b : Timestamp) : bool :=
  match ts_compare a b with Eq => true | _ => false end.

(** Pairwise different dates. *)
Fixpoint distinct_dates (idx : list Timestamp) : bool :=
  match idx with
  | [] => true
  | a :: rest => negb (existsb (ts_eqb a) rest) && distinct_dates rest
  end.

(** A date between two dates, both included. *)
Definition between (start_date end_date d : Timestamp) : bool :=
  ts_leb start_date d && ts_leb d end_date.

(** The rows of a column, each with its date. *)
Definition dated (d : DataFrame) (c : Column) : list (Timestamp * float) :=
  List.combine (index d) (snd c).

(** A table with a second instrument listed one day late. *)
Definition raw_download : RawFrame :=
  mkRaw [d27; d28; d29]
        (MultiIndex
           [(("Close", "GC=F"), [F64.of_Z 100; F64.nan; F64.of_Z 90]);
            (("Close", "SOL-USD"), [F64.nan; F64.of_Z 5; F64.of_Z 6]);
            (("Volume", "GC=F"), [F64.of_Z 1; F64.of_Z 2; F64.of_Z 3])]).

Definition unsorted_frame : DataFrame :=
  mkFrame [d29; d27; d28]
          [("Gold", [F64.of_Z 90; F64.of_Z 100; F64.nan]);
           ("Solana", [F64.of_Z 6; F64.nan; F64.of_Z 5])].

(** The downloaded frame has a column of the field 'Close'. *)
Definition has_close (raw : RawFrame) : bool :=
  match raw_columns raw with
  | MultiIndex cols => existsb (fun c => String.eqb (fst (fst c)) "Close") cols
  | FlatIndex cols => existsb (fun c => String.eqb (fst c) "Close") cols
  end.

(** ** Python indices *)

(** The position of [xs[i]] for a Python [int] and a sequence of [len]
    elements: a negative index counts from the end; an [IndexError] when
    the index is not within [-len .. len - 1]. *)
Definition py_position (len : nat) (i : Z) : option nat :=
  if 0 <=? i then
    if i <? Z.of_nat len then Some (Z.to_nat i) else None
  else
    if 0 <=? Z.of_nat len + i then Some (Z.to_nat (Z.of_nat len + i)) else None.

(** The callback on a pair of Python [int]s. Lines 107-108 read the two
    dates at these indices, and nothing else in the callback uses the
    indices: it is [update_graph] on the two positions read. *)
Definition update_graph_int (data : ref) (selected_range : Z * Z) : Py (ref * Html) :=
  (table <- get_frame data ;;
   start_idx <- lift (py_position (length (date_list table)) (fst selected_range)) ;;
   end_idx <- lift (py_position (length (date_list table)) (snd selected_range)) ;;
   update_graph data (start_idx, end_idx))%py.

Definition render_int (selected_range : Z * Z) (table : DataFrame)
  : option (Figure * Html) :=
  outputs (update_graph_int 0%nat selected_range [ObjFrame table]).

(** ** Further tables of the examples *)

(** A price table in which no instrument had any data. *)
Definition no_columns_table : DataFrame := mkFrame [d27; d28; d29] [].

(** All the dates that appear on the lines of a chart. *)
Definition chart_dates (out : option (Figure * Html)) : option (list Timestamp) :=
  option_map (fun o => List.flat_map trace_x (traces (fst o))) out.

(** Downloads whose rows are not in date order. *)
Definition late_row_first : DataFrame :=
  mkFrame [d28; d27; d29] [("Gold", [F64.nan; F64.of_Z 5; F64.of_Z 6])].

Definition early_row_last : DataFrame :=
  mkFrame [d28; d27] [("Gold", [F64.of_Z 5; F64.nan])].

(** * Properties *)

(** ** Binary64 facts *)

Module F64Facts.

Lemma div_eucl_exact (m : positive) (q : Z) :
  Z.div_eucl (q * Z.pos m) (Z.pos m) = (q, 0).
Proof.
  pose proof (Z.div_mul q (Z.pos m) ltac:(lia)) as Hd.
  pose proof (Z.mod_mul q (Z.pos m) ltac:(lia)) as Hm.
  unfold Z.div, Z.modulo in Hd, Hm.
  destruct (Z.div_eucl (q * Z.pos m) (Z.pos m)) as [a b].
  simpl in Hd, Hm. congruence.
Qed.

(** A number divided by itself is exactly one: the quotient of the
    mantissas is exact and does not depend on the mantissa. *)
Lemma div_self s m e :
  F64.div (S754_finite s m e) (S754_finite s m e) = F64.of_Z 1.
Proof.
  unfold F64.div, SFdiv, SFdiv_core_binary.
  replace (Zdigits2 (Z.pos m) + e - (Zdigits2 (Z.pos m) + e)) with 0 by lia.
  replace (e - e) with 0 by lia.
  change (Z.min (fexp F64.prec F64.emax 0) 0) with (-53).
  change (0 - -53) with 53.
  cbv iota beta.
  rewrite Z.shiftl_mul_pow2 by lia.
  rewrite (Z.mul_comm (Z.pos m)).
  change IntDef.Z.div_eucl with Z.div_eucl.
  rewrite div_eucl_exact.
  unfold new_location, new_location_even, new_location_odd.
  destruct (Z.even (Z.pos m)), s; reflexivity.
Qed.

Lemma shr_52 (m : positive) :
  iter_pos shr_1 52 (Build_shr_record (Z.pos (m * 2 ^ 52)) false false)
  = Build_shr_record (Z.pos m) false false.
Proof. rewrite Pos.mul_comm. vm_compute. reflexivity. Qed.

Lemma digits2_pos_xO (p : positive) : digits2_pos p~0 = Pos.succ (digits2_pos p).
Proof. reflexivity. Qed.

Lemma digits2_pos_shift52 (m : positive) :
  digits2_pos m = 53%positive -> digits2_pos (m * 2 ^ 52) = 105%positive.
Proof.
  intros H. rewrite Pos.mul_comm.
  change (2 ^ 52 * m)%positive with (Pos.iter xO m 52).
  cbn [Pos.iter]. rewrite !digits2_pos_xO, H. reflexivity.
Qed.

Lemma shr_fexp_product m e k :
  digits2_pos m = 53%positive -> -1074 <= e + k ->
  shr_fexp F64.prec F64.emax (Z.pos (m * 2 ^ 52)) (e + (k - 52)) loc_Exact
  = (Build_shr_record (Z.pos m) false false, e + k).
Proof.
  intros Hd Hk.
  unfold shr_fexp, Zdigits2. rewrite (digits2_pos_shift52 m Hd).
  unfold fexp, emin, F64.prec, F64.emax.
  replace (Z.max (105 + (e + (k - 52)) - 53) (3 - 1024 - 53) - (e + (k - 52)))
    with 52 by lia.
  unfold shr, shr_record_of_loc. rewrite shr_52. f_equal. lia.
Qed.

Lemma shr_fexp_normal m e :
  digits2_pos m = 53%positive -> -1074 <= e ->
  shr_fexp F64.prec F64.emax (Z.pos m) e loc_Exact
  = (Build_shr_record (Z.pos m) false false, e).
Proof.
  intros Hd He.
  unfold shr_fexp, Zdigits2. rewrite Hd.
  unfold fexp, emin, F64.prec, F64.emax.
  replace (Z.max (53 + e - 53) (3 - 1024 - 53) - e) with 0 by lia.
  reflexivity.
Qed.

(** Multiplying a normal number by [2^k] moves its exponent, as long as
    the result is normal too. *)
Lemma mul_pow2 s m e k :
  digits2_pos m = 53%positive -> -1074 <= e + k <= 971 ->
  F64.mul (S754_finite s m e) (F64.pow2 k) = S754_finite s m (e + k).
Proof.
  intros Hd Hk.
  unfold F64.mul, F64.pow2, SFmul, binary_round_aux.
  rewrite (shr_fexp_product m e k Hd (proj1 Hk)).
  cbn [shr_m loc_of_shr_record round_nearest_even].
  rewrite (shr_fexp_normal m (e + k) Hd (proj1 Hk)).
  cbn [shr_m].
  unfold F64.emax, F64.prec.
  destruct (Z.leb_spec (e + k) (1024 - 53)); [|lia].
  destruct s; reflexivity.
Qed.

(** A quotient depends on the difference of the exponents only. *)
Lemma div_shift s1 m1 e1 s2 m2 e2 k :
  F64.div (S754_finite s1 m1 (e1 + k)) (S754_finite s2 m2 (e2 + k))
  = F64.div (S754_finite s1 m1 e1) (S754_finite s2 m2 e2).
Proof.
  unfold F64.div, SFdiv, SFdiv_core_binary.
  replace (Zdigits2 (Z.pos m1) + (e1 + k) - (Zdigits2 (Z.pos m2) + (e2 + k)))
    with (Zdigits2 (Z.pos m1) + e1 - (Zdigits2 (Z.pos m2) + e2)) by lia.
  replace (e1 + k - (e2 + k)) with (e1 - e2) by lia.
  reflexivity.
Qed.

Lemma mul_pow2_scales k v :
  scales_by k v = true ->
  F64.mul v (F64.pow2 k)
  = match v with
    | S754_finite s m e => S754_finite s m (e + k)
    | _ => v
    end.
Proof.
  destruct v as [s|s| |s m e]; intros H.
  - destruct s; reflexivity.
  - destruct s; reflexivity.
  - reflexivity.
  - unfold scales_by in H.
    apply andb_prop in H as [H H3]. apply andb_prop in H as [H1 H2].
    apply mul_pow2.
    + apply Z.eqb_eq in H1. unfold F64.prec in H1. congruence.
    + lia.
Qed.

End F64Facts.

(** ** One cell of the rebasing *)

Lemma perf_cell_self b :
  F64.is_number b = true -> perf_cell b b = F64.zero.
Proof.
  destruct b as [s|s| |s m e]; try discriminate. intros _.
  unfold perf_cell. rewrite F64Facts.div_self. reflexivity.
Qed.

Lemma perf_cell_nan_baseline v : perf_cell v F64.nan = F64.nan.
Proof. destruct v as [s|s| |s m e]; reflexivity. Qed.

Lemma perf_cell_nan_value b : perf_cell F64.nan b = F64.nan.
Proof. reflexivity. Qed.

(** Over a zero baseline a cell is NaN or an infinity, never a number. *)
Lemma perf_cell_zero_baseline v sb :
  perf_cell v (S754_zero sb)
  = match v with
    | S754_finite s _ _ | S754_infinity s => S754_infinity (xorb s sb)
    | _ => F64.nan
    end.
Proof. destruct v as [s|s| |s m e], sb; try destruct s; reflexivity. Qed.

(** Scaling the value and the baseline by the same power of two leaves the
    cell unchanged. *)
Lemma perf_cell_pow2 k v b :
  scales_by k v = true -> scales_by k b = true ->
  perf_cell (F64.mul v (F64.pow2 k)) (F64.mul b (F64.pow2 k)) = perf_cell v b.
Proof.
  intros Hv Hb.
  rewrite (F64Facts.mul_pow2_scales k v Hv), (F64Facts.mul_pow2_scales k b Hb).
  unfold perf_cell.
  destruct v as [s|s| |s m e], b as [s'|s'| |s' m' e']; try reflexivity.
  rewrite F64Facts.div_shift. reflexivity.
Qed.

(** ** The order on dates *)

Ltac ts_order :=
  unfold ts_ltb, ts_leb, ts_compare;
  repeat match goal with t : Timestamp |- _ => destruct t end;
  cbn [year month day];
  repeat match goal with
         | |- context [Nat.compare ?a ?b] => destruct (Nat.compare_spec a b)
         end;
  intros; subst; try discriminate; try reflexivity; try lia.

Lemma ts_ltb_irrefl a : ts_ltb a a = false.
Proof. ts_order. Qed.

Lemma ts_leb_refl a : ts_leb a a = true.
Proof. ts_order. Qed.

Lemma ts_ltb_trans a b c :
  ts_ltb a b = true -> ts_ltb b c = true -> ts_ltb a c = true.
Proof. ts_order. Qed.

Lemma ts_ltb_leb a b : ts_ltb a b = true -> ts_leb a b = true.
Proof. ts_order. Qed.

Lemma ts_ltb_not_leb a b : ts_ltb a b = true -> ts_leb b a = false.
Proof. ts_order. Qed.

Lemma ts_leb_antisym a b : ts_leb a b = true -> ts_leb b a = true -> a = b.
Proof. ts_order. Qed.

Lemma strictly_increasing_cons a idx :
  strictly_increasing (a :: idx) = true ->
  Forall (fun d => ts_ltb a d = true) idx /\ strictly_increasing idx = true.
Proof.
  revert a. induction idx as [|b rest IH]; intros a H.
  - split; [constructor | reflexivity].
  - cbn [strictly_increasing] in H. apply andb_prop in H as [Hab Hrest].
    split; [|exact Hrest].
    destruct (IH b Hrest) as [Hall _].
    constructor; [exact Hab|].
    eapply Forall_impl; [exact Hall|].
    intros d Hd. cbv beta in *. eapply ts_ltb_trans; eassumption.
Qed.

(** ** Label slices on a sorted index *)

Lemma searchsorted_left_lookup (idx : list Timestamp) (i : nat) (d : Timestamp) :
  strictly_increasing idx = true -> idx !! i = Some d ->
  searchsorted_left idx d = i.
Proof.
  revert i. induction idx as [|a rest IH]; intros i Hs Hi; [discriminate|].
  apply strictly_increasing_cons in Hs as [Hall Hrest].
  destruct i as [|i]; cbn in Hi.
  - injection Hi as ->. cbn. rewrite ts_ltb_irrefl. reflexivity.
  - cbn [searchsorted_left].
    assert (Hlt : ts_ltb a d = true).
    { rewrite Forall_forall in Hall. apply Hall.
      apply list_elem_of_lookup. eauto. }
    rewrite Hlt. f_equal. apply IH; assumption.
Qed.

Lemma searchsorted_right_above (idx : list Timestamp) (d : Timestamp) :
  Forall (fun b => ts_ltb d b = true) idx -> searchsorted_right idx d = 0%nat.
Proof.
  intros H. destruct H as [|b rest Hb _]; [reflexivity|].
  cbn. rewrite (ts_ltb_not_leb _ _ Hb). reflexivity.
Qed.

Lemma searchsorted_right_lookup (idx : list Timestamp) (i : nat) (d : Timestamp) :
  strictly_increasing idx = true -> idx !! i = Some d ->
  searchsorted_right idx d = S i.
Proof.
  revert i. induction idx as [|a rest IH]; intros i Hs Hi; [discriminate|].
  apply strictly_increasing_cons in Hs as [Hall Hrest].
  destruct i as [|i]; cbn in Hi.
  - injection Hi as ->. cbn. rewrite ts_leb_refl.
    f_equal. apply searchsorted_right_above. exact Hall.
  - cbn [searchsorted_right].
    assert (Hlt : ts_ltb a d = true).
    { rewrite Forall_forall in Hall. apply Hall.
      apply list_elem_of_lookup. eauto. }
    rewrite (ts_ltb_leb _ _ Hlt). f_equal. apply IH; assumption.
Qed.

(** ** Running the callback in a store *)

Section Store.

Lemma lookup_snoc (st : store) (o : object) : (st ++ [o]) !! length st = Some o.
Proof. apply list_lookup_middle. reflexivity. Qed.

Lemma lookup_snoc_old (st : store) (o o' : object) (q : nat) :
  st !! q = Some o' -> (st ++ [o]) !! q = Some o'.
Proof. intros H. apply lookup_app_l_Some. exact H. Qed.

Lemma insert_snoc (st : store) (o o' : object) :
  <[length st := o']> (st ++ [o]) = st ++ [o'].
Proof.
  rewrite insert_app_r_alt by lia. rewrite Nat.sub_diag. reflexivity.
Qed.

Context {A : Type}.

Lemma bind_get_frame (p : ref) (d : DataFrame) (k : DataFrame -> Py A) (st : store) :
  st !! p = Some (ObjFrame d) -> bind (get_frame p) k st = k d st.
Proof. intros H. unfold bind, get_frame. rewrite H. reflexivity. Qed.

Lemma bind_get_series (p : ref) (s : Series) (k : Series -> Py A) (st : store) :
  st !! p = Some (ObjSeries s) -> bind (get_series p) k st = k s st.
Proof. intros H. unfold bind, get_series. rewrite H. reflexivity. Qed.

Lemma bind_get_long (p : ref) (rows : list LongRow) (k : list LongRow -> Py A)
      (st : store) :
  st !! p = Some (ObjLong rows) -> bind (get_long p) k st = k rows st.
Proof. intros H. unfold bind, get_long. rewrite H. reflexivity. Qed.

Lemma bind_alloc (o : object) (k : ref -> Py A) (st : store) :
  bind (alloc o) k st = k (length st) (st ++ [o]).
Proof. reflexivity. Qed.

Lemma bind_on_figure (f : Figure -> Figure) (g : Figure) (k : unit -> Py A)
      (st : store) :
  bind (on_figure (length st) f) k (st ++ [ObjFigure g])
  = k tt (st ++ [ObjFigure (f g)]).
Proof.
  unfold bind, on_figure. rewrite lookup_snoc, insert_snoc. reflexivity.
Qed.

End Store.

(** The callback, run from any store that holds the table at [data]:
    it allocates [fresh] objects and the figure after them. *)
Lemma update_graph_run (st : store) (data : ref) (table : DataFrame)
      (start_idx end_idx : nat) (start_date end_date : Timestamp)
      (performance : DataFrame) :
  st !! data = Some (ObjFrame table) ->
  index table !! start_idx = Some start_date ->
  index table !! end_idx = Some end_date ->
  rebase (loc_slice start_date end_date table) = Some performance ->
  exists st' : store,
    update_graph data (start_idx, end_idx) st
    = (Some (length st', range_text_of start_date end_date),
       st' ++ [ObjFigure (chart_of start_date performance)])
    /\ exists fresh : store, st' = st ++ fresh.
Proof.
  intros Hdata Hs He Hperf.
  unfold rebase in Hperf.
  destruct (iloc0 (loc_slice start_date end_date table)) as [row|] eqn:Hrow;
    [|discriminate].
  injection Hperf as <-.
  eexists. split.
  - unfold update_graph, date_list.
    rewrite (bind_get_frame _ _ _ _ Hdata).
    rewrite Hs. cbn [lift]. unfold bind at 1. cbn [ret].
    rewrite He. cbn [lift]. unfold bind at 1. cbn [ret].
    rewrite bind_alloc, (bind_get_frame _ _ _ _ (lookup_snoc _ _)).
    rewrite Hrow. cbn [lift]. unfold bind at 1. cbn [ret].
    rewrite bind_alloc, (bind_get_series _ _ _ _ (lookup_snoc _ _)).
    rewrite bind_alloc, (bind_get_frame _ _ _ _ (lookup_snoc _ _)).
    rewrite bind_alloc, (bind_get_frame _ _ _ _ (lookup_snoc _ _)).
    rewrite bind_alloc, (bind_get_frame _ _ _ _ (lookup_snoc _ _)).
    rewrite bind_alloc, (bind_get_long _ _ _ _ (lookup_snoc _ _)).
    rewrite bind_alloc.
    rewrite !bind_on_figure.
    reflexivity.
  - rewrite <- !app_assoc. eexists. reflexivity.
Qed.

(** The frame [performance] of line 115 is the fifth object that the
    callback allocates, and it is [performance_of]. *)
Lemma update_graph_performance (st : store) (data : ref) (table : DataFrame)
      (r : nat * nat) (performance : DataFrame) :
  st !! data = Some (ObjFrame table) ->
  performance_of r table = Some performance ->
  snd (update_graph data r st) !! (length st + 4)%nat = Some (ObjFrame performance).
Proof.
  intros Hdata Hperf. destruct r as [start_idx end_idx].
  unfold performance_of, date_list in Hperf. cbn [fst snd] in Hperf.
  destruct (index table !! start_idx) as [ds|] eqn:Hs; [|discriminate].
  destruct (index table !! end_idx) as [de|] eqn:He; [|discriminate].
  unfold rebase in Hperf.
  destruct (iloc0 (loc_slice ds de table)) as [row|] eqn:Hrow; [|discriminate].
  injection Hperf as <-.
  unfold update_graph, date_list.
  rewrite (bind_get_frame _ _ _ _ Hdata).
  rewrite Hs. cbn [lift]. unfold bind at 1. cbn [ret].
  rewrite He. cbn [lift]. unfold bind at 1. cbn [ret].
  rewrite bind_alloc, (bind_get_frame _ _ _ _ (lookup_snoc _ _)).
  rewrite Hrow. cbn [lift]. unfold bind at 1. cbn [ret].
  rewrite bind_alloc, (bind_get_series _ _ _ _ (lookup_snoc _ _)).
  rewrite bind_alloc, (bind_get_frame _ _ _ _ (lookup_snoc _ _)).
  rewrite bind_alloc, (bind_get_frame _ _ _ _ (lookup_snoc _ _)).
  rewrite bind_alloc, (bind_get_frame _ _ _ _ (lookup_snoc _ _)).
  rewrite bind_alloc, (bind_get_long _ _ _ _ (lookup_snoc _ _)).
  rewrite bind_alloc.
  rewrite !bind_on_figure.
  cbn [ret snd]. rewrite <- !app_assoc. cbn [app].
  rewrite lookup_app_r by lia.
  replace (length st + 4 - length st)%nat with 4%nat by lia.
  reflexivity.
Qed.

(** When the slice has no row, [iloc[0]] raises after the slice was
    allocated. *)
Lemma update_graph_no_row (st : store) (data : ref) (table : DataFrame)
      (start_idx end_idx : nat) (start_date end_date : Timestamp) :
  st !! data = Some (ObjFrame table) ->
  index table !! start_idx = Some start_date ->
  index table !! end_idx = Some end_date ->
  rebase (loc_slice start_date end_date table) = None ->
  update_graph data (start_idx, end_idx) st
  = (None, st ++ [ObjFrame (loc_slice start_date end_date table)]).
Proof.
  intros Hdata Hs He Hperf.
  unfold rebase in Hperf.
  destruct (iloc0 (loc_slice start_date end_date table)) as [row|] eqn:Hrow;
    [discriminate|].
  unfold update_graph, date_list.
  rewrite (bind_get_frame _ _ _ _ Hdata).
  rewrite Hs. cbn [lift]. unfold bind at 1. cbn [ret].
  rewrite He. cbn [lift]. unfold bind at 1. cbn [ret].
  rewrite bind_alloc, (bind_get_frame _ _ _ _ (lookup_snoc _ _)).
  rewrite Hrow. reflexivity.
Qed.

(** An index out of the date list raises before anything is allocated. *)
Lemma update_graph_no_date (st : store) (data : ref) (table : DataFrame)
      (start_idx end_idx : nat) :
  st !! data = Some (ObjFrame table) ->
  index table !! start_idx = None \/ index table !! end_idx = None ->
  update_graph data (start_idx, end_idx) st = (None, st).
Proof.
  intros Hdata Hnone.
  unfold update_graph, date_list.
  rewrite (bind_get_frame _ _ _ _ Hdata).
  destruct (index table !! start_idx) as [ds|]; [|reflexivity].
  cbn [lift]. unfold bind at 1. cbn [ret].
  destruct Hnone as [Hn|Hn]; [discriminate|]. rewrite Hn. reflexivity.
Qed.

Lemma update_graph_no_table (st : store) (data : ref) (r : nat * nat) :
  (forall table, st !! data <> Some (ObjFrame table)) ->
  update_graph data r st = (None, st).
Proof.
  intros Hdata. destruct r as [start_idx end_idx].
  unfold update_graph, bind at 1, get_frame.
  destruct (st !! data) as [[d| | |]|]; try reflexivity.
  exfalso. eapply Hdata. reflexivity.
Qed.

(** The outputs are those of [render_value], whatever else the store
    holds. *)
Lemma update_graph_outputs (st : store) (data : ref) (table : DataFrame)
      (r : nat * nat) :
  st !! data = Some (ObjFrame table) ->
  outputs (update_graph data r st) = render_value r table.
Proof.
  intros Hdata. destruct r as [start_idx end_idx].
  unfold render_value, date_list. cbn [fst snd].
  destruct (index table !! start_idx) as [ds|] eqn:Hs.
  2:{ rewrite (update_graph_no_date _ _ _ _ _ Hdata) by (left; exact Hs).
      reflexivity. }
  destruct (index table !! end_idx) as [de|] eqn:He.
  2:{ rewrite (update_graph_no_date _ _ _ _ _ Hdata) by (right; exact He).
      reflexivity. }
  destruct (rebase (loc_slice ds de table)) as [perf|] eqn:Hperf.
  - destruct (update_graph_run _ _ _ _ _ _ _ _ Hdata Hs He Hperf)
      as (st' & -> & _).
    unfold outputs. rewrite lookup_snoc. reflexivity.
  - rewrite (update_graph_no_row _ _ _ _ _ _ _ Hdata Hs He Hperf). reflexivity.
Qed.

(** Every object of the store before the call is still there after it. *)
Lemma update_graph_extends (st : store) (data : ref) (r : nat * nat) :
  exists fresh : store, snd (update_graph data r st) = st ++ fresh.
Proof.
  destruct (st !! data) as [o|] eqn:Hdata.
  2:{ exists []. rewrite update_graph_no_table, app_nil_r; [reflexivity|].
      intros table. rewrite Hdata. discriminate. }
  destruct o as [table|s|rows|f].
  2,3,4: exists []; rewrite update_graph_no_table, app_nil_r; [reflexivity|];
         intros table; rewrite Hdata; discriminate.
  destruct r as [start_idx end_idx].
  destruct (index table !! start_idx) as [ds|] eqn:Hs.
  2:{ exists []. rewrite (update_graph_no_date _ _ _ _ _ Hdata) by (left; exact Hs).
      rewrite app_nil_r. reflexivity. }
  destruct (index table !! end_idx) as [de|] eqn:He.
  2:{ exists []. rewrite (update_graph_no_date _ _ _ _ _ Hdata) by (right; exact He).
      rewrite app_nil_r. reflexivity. }
  destruct (rebase (loc_slice ds de table)) as [perf|] eqn:Hperf.
  - destruct (update_graph_run _ _ _ _ _ _ _ _ Hdata Hs He Hperf)
      as (st' & -> & fresh & ->).
    eexists. cbn [snd]. rewrite <- app_assoc. reflexivity.
  - rewrite (update_graph_no_row _ _ _ _ _ _ _ Hdata Hs He Hperf).
    eexists. reflexivity.
Qed.

(** ** Windows of rows *)

Lemma window_lookup {A} (r : nat * nat) (xs : list A) (i : nat) :
  (fst r <= snd r)%nat -> (i <= snd r - fst r)%nat ->
  window r xs !! i = xs !! (fst r + i)%nat.
Proof.
  intros Hr Hi. unfold window, slice.
  rewrite lookup_take_lt by lia. apply lookup_drop.
Qed.

Lemma window_length {A} (r : nat * nat) (xs : list A) :
  (fst r <= snd r)%nat -> (snd r < length xs)%nat ->
  length (window r xs) = S (snd r - fst r).
Proof.
  intros Hr Hl. unfold window, slice.
  rewrite length_take, length_drop. lia.
Qed.

Lemma window_hd {A} (r : nat * nat) (xs : list A) (dflt v : A) :
  (fst r <= snd r)%nat -> xs !! fst r = Some v ->
  List.hd dflt (window r xs) = v.
Proof.
  intros Hr Hv.
  pose proof (window_lookup r xs 0 Hr ltac:(lia)) as H.
  rewrite Nat.add_0_r, Hv in H.
  destruct (window r xs); [discriminate|].
  cbn in H. injection H as ->. reflexivity.
Qed.

Lemma window_nonempty {A} (r : nat * nat) (xs : list A) :
  (fst r <= snd r)%nat -> (snd r < length xs)%nat -> window r xs <> [].
Proof.
  intros Hr Hl Hnil.
  pose proof (window_length r xs Hr Hl) as H. rewrite Hnil in H. discriminate.
Qed.

(** On a table whose dates increase strictly, the label slice between the
    dates at [start] and [end] is the window of rows [start .. end]. *)
Lemma loc_slice_window (table : DataFrame) (r : nat * nat)
      (start_date end_date : Timestamp) :
  strictly_increasing (index table) = true ->
  index table !! fst r = Some start_date ->
  index table !! snd r = Some end_date ->
  loc_slice start_date end_date table
  = mkFrame (window r (index table))
            (List.map (fun c : Column => (fst c, window r (snd c))) (columns table)).
Proof.
  intros Hs Hstart Hend. unfold loc_slice, window.
  rewrite (searchsorted_left_lookup _ _ _ Hs Hstart).
  rewrite (searchsorted_right_lookup _ _ _ Hs Hend).
  reflexivity.
Qed.

(** ** The rebasing of a frame *)

Lemma combine_map_self {A B} (f : A -> B) (xs : list A) :
  List.combine xs (List.map f xs) = List.map (fun a => (a, f a)) xs.
Proof. induction xs as [|a xs IH]; cbn; [reflexivity | rewrite IH; reflexivity]. Qed.

Lemma rebase_columns (d : DataFrame) :
  index d <> [] ->
  rebase d = Some (mkFrame (index d) (List.map rebased_column (columns d))).
Proof.
  intros Hne. unfold rebase, iloc0.
  destruct (index d) as [|d0 idx] eqn:Hidx; [contradiction|].
  unfold mul_scalar, sub_scalar, map_cells, div_row. cbn [index columns].
  rewrite Hidx. f_equal. f_equal.
  rewrite combine_map_self, !List.map_map.
  apply List.map_ext. intros c. cbn [fst snd].
  unfold rebased_column. f_equal.
  rewrite !List.map_map. reflexivity.
Qed.

Lemma performance_of_window (table : DataFrame) (r : nat * nat) :
  strictly_increasing (index table) = true ->
  valid_range r table ->
  performance_of r table
  = Some (mkFrame (window r (index table))
                  (List.map (fun c : Column => rebased_column (fst c, window r (snd c)))
                            (columns table))).
Proof.
  intros Hs [Hr Hl]. unfold performance_of, date_list.
  destruct (lookup_lt_is_Some_2 (index table) (fst r) ltac:(lia)) as [ds Hds].
  destruct (lookup_lt_is_Some_2 (index table) (snd r) ltac:(lia)) as [de Hde].
  rewrite Hds, Hde, (loc_slice_window _ _ _ _ Hs Hds Hde).
  rewrite rebase_columns by (apply window_nonempty; assumption).
  cbn [index columns]. rewrite List.map_map. reflexivity.
Qed.

(** ** From the long frame to the lines of the chart *)

Lemma melt_cons (idx : list Timestamp) (c : Column) (cs : list Column) :
  melt (mkFrame idx (c :: cs)) = long_rows idx c ++ melt (mkFrame idx cs).
Proof. reflexivity. Qed.

Lemma filter_all {A} (f : A -> bool) (xs : list A) :
  (forall a, In a xs -> f a = true) -> List.filter f xs = xs.
Proof.
  induction xs as [|a xs IH]; intros H; cbn; [reflexivity|].
  rewrite (H a (or_introl eq_refl)). f_equal. apply IH.
  intros a' Ha'. apply H. right. exact Ha'.
Qed.

Lemma filter_none {A} (f : A -> bool) (xs : list A) :
  (forall a, In a xs -> f a = false) -> List.filter f xs = [].
Proof.
  induction xs as [|a xs IH]; intros H; cbn; [reflexivity|].
  rewrite (H a (or_introl eq_refl)). apply IH.
  intros a' Ha'. apply H. right. exact Ha'.
Qed.

Lemma existsb_eqb_false (a : string) (names : list string) :
  existsb (String.eqb a) names = false -> ~ In a names.
Proof.
  intros H Hin.
  assert (existsb (String.eqb a) names = true) as Ht.
  { apply List.existsb_exists. exists a. split; [exact Hin | apply String.eqb_refl]. }
  congruence.
Qed.

Lemma rows_of_long_rows_same (idx : list Timestamp) (c : Column) :
  rows_of (fst c) (long_rows idx c) = long_rows idx c.
Proof.
  apply filter_all. intros row Hrow. unfold long_rows in Hrow.
  apply List.in_map_iff in Hrow as (dv & <- & _). cbn. apply String.eqb_refl.
Qed.

Lemma rows_of_long_rows_other (idx : list Timestamp) (a : string) (c : Column) :
  a <> fst c -> rows_of a (long_rows idx c) = [].
Proof.
  intros Hne. apply filter_none. intros row Hrow. unfold long_rows in Hrow.
  apply List.in_map_iff in Hrow as (dv & <- & _). cbn.
  apply String.eqb_neq. exact Hne.
Qed.

Lemma rows_of_melt_absent (idx : list Timestamp) (a : string) (cs : list Column) :
  ~ In a (List.map fst cs) -> rows_of a (melt (mkFrame idx cs)) = [].
Proof.
  induction cs as [|c cs IH]; intros Hnot; [reflexivity|].
  rewrite melt_cons. unfold rows_of in *. rewrite List.filter_app.
  fold (rows_of a (long_rows idx c)).
  rewrite rows_of_long_rows_other, IH; [reflexivity | |].
  - intros Hin. apply Hnot. right. exact Hin.
  - intros ->. apply Hnot. left. reflexivity.
Qed.

(** With distinct labels, the rows of an asset in the long frame are the
    rows of its column. *)
Lemma rows_of_melt (idx : list Timestamp) (cs : list Column) (c : Column) :
  distinct (List.map fst cs) = true -> In c cs ->
  rows_of (fst c) (melt (mkFrame idx cs)) = long_rows idx c.
Proof.
  induction cs as [|c0 cs IH]; intros Hd Hin; [destruct Hin|].
  cbn [List.map distinct] in Hd. apply andb_prop in Hd as [Hfresh Hd].
  apply negb_true_iff in Hfresh. apply existsb_eqb_false in Hfresh.
  rewrite melt_cons. unfold rows_of. rewrite List.filter_app.
  fold (rows_of (fst c) (long_rows idx c0)).
  fold (rows_of (fst c) (melt (mkFrame idx cs))).
  destruct Hin as [->|Hin].
  - rewrite rows_of_long_rows_same, rows_of_melt_absent by exact Hfresh.
    apply app_nil_r.
  - rewrite rows_of_long_rows_other, (IH Hd Hin); [reflexivity|].
    intros Heq. apply Hfresh. rewrite <- Heq. apply List.in_map. exact Hin.
Qed.

Lemma unique_subset (names : list string) (a : string) :
  In a (unique names) -> In a names.
Proof.
  revert a. induction names as [|b names IH]; intros a H; [exact H|].
  cbn in H. destruct H as [->|H]; [left; reflexivity|].
  apply List.filter_In in H as [H _]. right. apply IH. exact H.
Qed.

Lemma unique_repeat_app (a : string) (n : nat) (names : list string) :
  unique (List.repeat a (S n) ++ names)
  = a :: List.filter (fun c => negb (String.eqb a c)) (unique names).
Proof.
  induction n as [|n IH]; [reflexivity|].
  change (List.repeat a (S (S n)) ++ names) with (a :: (List.repeat a (S n) ++ names)).
  cbn [unique]. rewrite IH. cbn [List.filter].
  rewrite String.eqb_refl. cbn [negb]. f_equal.
  apply filter_all. intros c Hc. apply List.filter_In in Hc as [_ Hc]. exact Hc.
Qed.

Lemma assets_long_rows (idx : list Timestamp) (c : Column) :
  List.map Asset (long_rows idx c)
  = List.repeat (fst c) (length (List.combine idx (snd c))).
Proof.
  unfold long_rows. rewrite List.map_map. cbn [Asset].
  induction (List.combine idx (snd c)) as [|dv l IH]; cbn; [reflexivity|].
  rewrite IH. reflexivity.
Qed.

(** The assets of the long frame, in order of first appearance, are the
    column labels. *)
Lemma unique_assets (idx : list Timestamp) (cs : list Column) :
  idx <> [] ->
  Forall (fun c : Column => length (snd c) = length idx) cs ->
  distinct (List.map fst cs) = true ->
  unique (List.map Asset (melt (mkFrame idx cs))) = List.map fst cs.
Proof.
  intros Hne Hwf. induction Hwf as [|c cs Hc Hwf IH]; intros Hd; [reflexivity|].
  cbn [List.map distinct] in Hd. apply andb_prop in Hd as [Hfresh Hd].
  apply negb_true_iff in Hfresh. apply existsb_eqb_false in Hfresh.
  rewrite melt_cons, List.map_app, assets_long_rows.
  assert (exists n, length (List.combine idx (snd c)) = S n) as [n ->].
  { rewrite List.length_combine, Hc, Nat.min_id.
    destruct idx; [contradiction | eexists; reflexivity]. }
  rewrite unique_repeat_app, (IH Hd). cbn [List.map]. f_equal.
  apply filter_all. intros a Ha.
  apply negb_true_iff. apply String.eqb_neq. intros Heq.
  apply Hfresh. rewrite Heq. exact Ha.
Qed.

Lemma dates_long_rows (idx : list Timestamp) (c : Column) :
  length (snd c) = length idx -> List.map Date (long_rows idx c) = idx.
Proof.
  intros Hl. unfold long_rows. rewrite List.map_map. cbn [Date].
  change (List.map (fun dv : Timestamp * float => fst dv)) with (@List.map (Timestamp * float) _ fst).
  apply fst_zip. lia.
Qed.

Lemma performance_long_rows (idx : list Timestamp) (c : Column) :
  length (snd c) = length idx -> List.map Performance (long_rows idx c) = snd c.
Proof.
  intros Hl. unfold long_rows. rewrite List.map_map. cbn [Performance].
  change (List.map (fun dv : Timestamp * float => snd dv)) with (@List.map (Timestamp * float) _ snd).
  apply snd_zip. lia.
Qed.

Lemma traces_add_hline (h : HLine) (f : Figure) : traces (add_hline h f) = traces f.
Proof.
  destruct f as [t tp tr ys hl hm lt mg]. unfold add_hline. cbn.
  destruct tr, hl; reflexivity.
Qed.

Lemma title_add_hline (h : HLine) (f : Figure) : title (add_hline h f) = title f.
Proof.
  destruct f as [t tp tr ys hl hm lt mg]. unfold add_hline. cbn.
  destruct tr, hl; reflexivity.
Qed.

Lemma traces_chart_of (start_date : Timestamp) (d : DataFrame) :
  traces (chart_of start_date d)
  = List.map (fun tr => mkTrace (trace_name tr) (trace_x tr) (trace_y tr)
                                "%{y:.2f}%<br>%{x|%Y-%m-%d}")
             (traces (px_line (melt d)
                              ("Performance from " +:+ strftime_Ymd start_date)
                              "plotly_dark")).
Proof.
  unfold chart_of, update_layout. cbn [traces]. rewrite traces_add_hline.
  reflexivity.
Qed.

Lemma title_chart_of (start_date : Timestamp) (d : DataFrame) :
  title (chart_of start_date d) = "Performance from " +:+ strftime_Ymd start_date.
Proof.
  unfold chart_of, update_layout. cbn [title]. rewrite title_add_hline.
  reflexivity.
Qed.

(** The chart has one line per column, with the dates of the frame and the
    cells of the column. *)
Lemma chart_traces (start_date : Timestamp) (d : DataFrame) :
  index d <> [] -> frame_wf d -> distinct (List.map fst (columns d)) = true ->
  traces (chart_of start_date d)
  = List.map (fun c : Column =>
                mkTrace (fst c) (index d) (snd c) "%{y:.2f}%<br>%{x|%Y-%m-%d}")
             (columns d).
Proof.
  intros Hne Hwf Hd. destruct d as [idx cs]. cbn [index columns] in *.
  rewrite traces_chart_of. unfold px_line.
  cbn [traces]. rewrite List.map_map. cbn [trace_name trace_x trace_y].
  rewrite (unique_assets idx cs Hne Hwf Hd), List.map_map.
  apply List.map_ext_in. intros c Hc.
  rewrite (rows_of_melt idx cs c Hd Hc).
  unfold frame_wf in Hwf. cbn [index columns] in Hwf.
  rewrite List.Forall_forall in Hwf. specialize (Hwf c Hc). cbn beta in Hwf.
  rewrite dates_long_rows, performance_long_rows by exact Hwf.
  reflexivity.
Qed.

(** ** A render of a price table *)

Lemma frame_wfb_wf (d : DataFrame) : frame_wfb d = true -> frame_wf d.
Proof.
  unfold frame_wfb, frame_wf. intros H.
  apply List.Forall_forall. intros c Hc.
  rewrite List.forallb_forall in H. apply Nat.eqb_eq. apply H. exact Hc.
Qed.

Lemma price_table_inv (d : DataFrame) :
  price_table d = true ->
  frame_wf d /\ strictly_increasing (index d) = true
  /\ distinct (List.map fst (columns d)) = true.
Proof.
  unfold price_table. intros H.
  apply andb_prop in H as [H H3]. apply andb_prop in H as [H1 H2].
  auto using frame_wfb_wf.
Qed.

Lemma render_render_value (r : nat * nat) (table : DataFrame) :
  render r table = render_value r table.
Proof. unfold render. apply update_graph_outputs. reflexivity. Qed.

(** On a price table and a valid range, a render returns the label of the
    two dates and a chart with one line per column: the dates of the
    window, and the cells of the window rebased on its first one. *)
Lemma render_lines (table : DataFrame) (r : nat * nat) :
  price_table table = true -> valid_range r table ->
  exists (start_date end_date : Timestamp) (fig : Figure),
    index table !! fst r = Some start_date /\
    index table !! snd r = Some end_date /\
    render r table = Some (fig, range_text_of start_date end_date) /\
    title fig = "Performance from " +:+ strftime_Ymd start_date /\
    traces fig = List.map (line_of r table) (columns table).
Proof.
  intros Hpt Hvalid.
  destruct (price_table_inv _ Hpt) as (Hwf & Hs & Hd).
  pose proof Hvalid as [Hr Hl].
  destruct (lookup_lt_is_Some_2 (index table) (fst r) ltac:(lia)) as [ds Hds].
  destruct (lookup_lt_is_Some_2 (index table) (snd r) ltac:(lia)) as [de Hde].
  exists ds, de. eexists. split; [exact Hds|]. split; [exact Hde|].
  rewrite render_render_value. unfold render_value, date_list.
  rewrite Hds, Hde, (loc_slice_window _ _ _ _ Hs Hds Hde).
  rewrite rebase_columns by (apply window_nonempty; assumption).
  cbn [index columns].
  split; [reflexivity|]. split; [apply title_chart_of|].
  rewrite chart_traces; cbn [index columns].
  - rewrite !List.map_map. reflexivity.
  - apply window_nonempty; assumption.
  - unfold frame_wf in *. cbn [index columns].
    rewrite !List.Forall_map. eapply Forall_impl; [exact Hwf|].
    intros c Hc. cbn [rebased_column fst snd] in *.
    rewrite List.length_map, !window_length; [reflexivity| | | |]; lia.
  - rewrite !List.map_map. cbn [rebased_column fst snd]. exact Hd.
Qed.

Lemma lookup_map {A B} (f : A -> B) (xs : list A) (i : nat) :
  List.map f xs !! i = option_map f (xs !! i).
Proof.
  revert i. induction xs as [|a xs IH]; intros [|i]; cbn; try reflexivity.
  apply IH.
Qed.

Lemma line_of_first (table : DataFrame) (r : nat * nat) (c : Column) (b : float) :
  (fst r <= snd r)%nat -> snd c !! fst r = Some b ->
  trace_y (line_of r table c)
  = List.map (fun v => perf_cell v b) (window r (snd c))
  /\ trace_y (line_of r table c) !! 0%nat = Some (perf_cell b b).
Proof.
  intros Hr Hb. unfold line_of, rebased_column. cbn [trace_y fst snd].
  rewrite (window_hd r (snd c) F64.nan b Hr Hb). split; [reflexivity|].
  rewrite lookup_map, (window_lookup r (snd c) 0 Hr ltac:(lia)), Nat.add_0_r, Hb.
  reflexivity.
Qed.

(** * The claims *)

(** ** C1: the baseline row *)

(** C1, as stated, fails: in the table prepared from [late_raw] the column
    "Solana" survives and has no price on the first day, and the render of
    the full range starts its line at NaN, not at 0.0. *)
Lemma baseline_zero_counterexample :
  prepare late_raw = late_table /\
  price_table late_table = true /\
  valid_range (0, 2)%nat late_table /\
  first_values (render (0, 2)%nat late_table)
  = Some [("Gold", Some F64.zero); ("Solana", Some F64.nan)].
Proof.
  split; [reflexivity|]. split; [reflexivity|].
  split; [unfold valid_range; cbn; lia | reflexivity].
Qed.

(** C1, amended: for every price table and every valid selected range, in
    every column whose value at [start_index] is a finite number other
    than zero, the performance at the first row of the render (the row of
    [start_index]) is exactly [0.0]. *)
Theorem baseline_zero (table : DataFrame) (r : nat * nat) :
  price_table table = true -> valid_range r table ->
  exists (fig : Figure) (label : Html),
    render r table = Some (fig, label) /\
    forall (i : nat) (c : Column) (b : float),
      columns table !! i = Some c ->
      snd c !! fst r = Some b ->
      F64.is_number b = true ->
      exists line : Trace,
        traces fig !! i = Some line /\
        trace_name line = fst c /\
        trace_x line !! 0%nat = index table !! fst r /\
        trace_y line !! 0%nat = Some F64.zero.
Proof.
  intros Hpt Hvalid.
  destruct (render_lines table r Hpt Hvalid)
    as (ds & de & fig & Hds & Hde & Hrender & _ & Htraces).
  exists fig, (range_text_of ds de). split; [exact Hrender|].
  intros i c b Hc Hb Hnum.
  exists (line_of r table c).
  destruct Hvalid as [Hr Hl].
  rewrite Htraces, lookup_map, Hc. split; [reflexivity|]. split; [reflexivity|].
  split.
  - cbn [line_of trace_x].
    rewrite (window_lookup r (index table) 0 Hr ltac:(lia)), Nat.add_0_r.
    reflexivity.
  - destruct (line_of_first table r c b Hr Hb) as [_ ->].
    rewrite (perf_cell_self b Hnum). reflexivity.
Qed.

Lemma baseline_zero_witness :
  exists (fig : Figure) (label : Html),
    render (1, 2)%nat gold_table = Some (fig, label) /\
    forall (i : nat) (c : Column) (b : float),
      columns gold_table !! i = Some c ->
      snd c !! fst (1, 2)%nat = Some b ->
      F64.is_number b = true ->
      exists line : Trace,
        traces fig !! i = Some line /\
        trace_name line = fst c /\
        trace_x line !! 0%nat = index gold_table !! fst (1, 2)%nat /\
        trace_y line !! 0%nat = Some F64.zero.
Proof.
  apply (baseline_zero gold_table (1, 2)%nat).
  - reflexivity.
  - unfold valid_range; cbn; lia.
Defined.

(** ** C2: a baseline that is zero or missing *)

(** C2, as stated, fails: over a baseline of zero the division is carried
    out, and the line of the column holds an infinity where the price is
    not zero. *)
Lemma zero_baseline_counterexample :
  price_table zero_table = true /\
  valid_range (0, 2)%nat zero_table /\
  series (render (0, 2)%nat zero_table)
  = Some [("Gold", [F64.zero;
                    S754_finite false 5629499534213125 (-49);
                    S754_finite true 5629499534213119 (-49)]);
          ("Token", [F64.nan; S754_infinity false; F64.nan])].
Proof.
  split; [reflexivity|].
  split; [unfold valid_range; cbn; lia | reflexivity].
Qed.

(** C2, amended: for every price table and every valid selected range,
    every column is rebased on its own baseline alone. If the baseline is
    missing, every value of the line is missing (NaN). If the baseline is
    zero, no value of the line is a finite number: it is NaN where the
    price is zero or missing and an infinity where the price is a number
    other than zero or an infinity. *)
Theorem undefined_baseline (table : DataFrame) (r : nat * nat) :
  price_table table = true -> valid_range r table ->
  exists (fig : Figure) (label : Html),
    render r table = Some (fig, label) /\
    forall (i : nat) (c : Column) (b : float),
      columns table !! i = Some c ->
      snd c !! fst r = Some b ->
      exists line : Trace,
        traces fig !! i = Some line /\
        trace_name line = fst c /\
        trace_y line = List.map (fun v => perf_cell v b) (window r (snd c)) /\
        (F64.is_nan b = true ->
         forall v, perf_cell v b = F64.nan) /\
        (F64.is_zero b = true ->
         forall v,
           F64.is_finite (perf_cell v b) = false /\
           (F64.is_zero v || F64.is_nan v = true -> perf_cell v b = F64.nan) /\
           (F64.is_number v || F64.is_inf v = true ->
            F64.is_inf (perf_cell v b) = true)).
Proof.
  intros Hpt Hvalid.
  destruct (render_lines table r Hpt Hvalid)
    as (ds & de & fig & Hds & Hde & Hrender & _ & Htraces).
  exists fig, (range_text_of ds de). split; [exact Hrender|].
  intros i c b Hc Hb.
  exists (line_of r table c).
  destruct Hvalid as [Hr Hl].
  rewrite Htraces, lookup_map, Hc. split; [reflexivity|]. split; [reflexivity|].
  destruct (line_of_first table r c b Hr Hb) as [-> _].
  split; [reflexivity|]. split.
  - intros Hnan v. destruct b; try discriminate. apply perf_cell_nan_baseline.
  - intros Hzero v. destruct b as [sb| | |]; try discriminate.
    rewrite perf_cell_zero_baseline.
    destruct v as [s|s| |s m e]; cbn; repeat split; intros; try reflexivity;
      discriminate.
Qed.

Lemma undefined_baseline_witness :
  exists (fig : Figure) (label : Html),
    render (0, 2)%nat zero_table = Some (fig, label) /\
    forall (i : nat) (c : Column) (b : float),
      columns zero_table !! i = Some c ->
      snd c !! fst (0, 2)%nat = Some b ->
      exists line : Trace,
        traces fig !! i = Some line /\
        trace_name line = fst c /\
        trace_y line = List.map (fun v => perf_cell v b) (window (0, 2)%nat (snd c)) /\
        (F64.is_nan b = true ->
         forall v, perf_cell v b = F64.nan) /\
        (F64.is_zero b = true ->
         forall v,
           F64.is_finite (perf_cell v b) = false /\
           (F64.is_zero v || F64.is_nan v = true -> perf_cell v b = F64.nan) /\
           (F64.is_number v || F64.is_inf v = true ->
            F64.is_inf (perf_cell v b) = true)).
Proof.
  apply (undefined_baseline zero_table (0, 2)%nat).
  - reflexivity.
  - unfold valid_range; cbn; lia.
Defined.

(** ** C3: the dates of a render *)

Lemma strictly_increasing_tail (a : Timestamp) (idx : list Timestamp) :
  strictly_increasing (a :: idx) = true -> strictly_increasing idx = true.
Proof. intros H. apply strictly_increasing_cons in H. tauto. Qed.

Lemma strictly_increasing_skipn (n : nat) (idx : list Timestamp) :
  strictly_increasing idx = true -> strictly_increasing (List.skipn n idx) = true.
Proof.
  revert idx. induction n as [|n IH]; intros idx H; [exact H|].
  destruct idx as [|a idx]; [reflexivity|].
  cbn [List.skipn]. apply IH. eapply strictly_increasing_tail. exact H.
Qed.

Lemma strictly_increasing_firstn (n : nat) (idx : list Timestamp) :
  strictly_increasing idx = true -> strictly_increasing (List.firstn n idx) = true.
Proof.
  revert idx. induction n as [|n IH]; intros idx H; [reflexivity|].
  destruct idx as [|a idx]; [reflexivity|].
  cbn [List.firstn].
  pose proof (IH idx (strictly_increasing_tail _ _ H)) as Hrest.
  destruct n as [|n]; [reflexivity|].
  destruct idx as [|b idx]; [reflexivity|].
  cbn [List.firstn strictly_increasing] in *.
  apply andb_prop in H as [Hab _]. rewrite Hab. exact Hrest.
Qed.

(** C3, as stated, fails: a price table in which no instrument had data
    has no column, the chart of a render has no line, and no date of the
    selected range appears in it. *)
Lemma range_containment_counterexample :
  price_table no_columns_table = true /\
  valid_range (0, 2)%nat no_columns_table /\
  window (0, 2)%nat (index no_columns_table) = [d27; d28; d29] /\
  chart_dates (render (0, 2)%nat no_columns_table) = Some [].
Proof.
  split; [reflexivity|].
  split; [unfold valid_range; cbn; lia|].
  split; reflexivity.
Qed.

(** C3, amended: for every price table with at least one column and every
    valid selected range, the dates that appear in the chart of the render
    are exactly the dates of the table from [start_index] to [end_index]
    inclusive: every line of the chart (one per column) has exactly these
    dates, in ascending order, as many as the range has rows, the i-th one
    being the date at [start_index + i]. *)
Theorem range_containment (table : DataFrame) (r : nat * nat) :
  price_table table = true -> columns table <> [] -> valid_range r table ->
  exists (fig : Figure) (label : Html),
    render r table = Some (fig, label) /\
    (forall d, In d (List.flat_map trace_x (traces fig))
               <-> In d (window r (index table))) /\
    length (traces fig) = length (columns table) /\
    (forall line, In line (traces fig) -> trace_x line = window r (index table)) /\
    length (window r (index table)) = S (snd r - fst r) /\
    (forall i, (i <= snd r - fst r)%nat ->
               window r (index table) !! i = index table !! (fst r + i)%nat) /\
    strictly_increasing (window r (index table)) = true.
Proof.
  intros Hpt Hcols Hvalid.
  destruct (render_lines table r Hpt Hvalid)
    as (ds & de & fig & Hds & Hde & Hrender & _ & Htraces).
  destruct (price_table_inv _ Hpt) as (Hwf & Hs & Hd).
  exists fig, (range_text_of ds de).
  split; [exact Hrender|].
  destruct Hvalid as [Hr Hl].
  assert (Hx : forall line, In line (traces fig) ->
                            trace_x line = window r (index table)).
  { intros line Hline. rewrite Htraces in Hline.
    apply List.in_map_iff in Hline as (c & <- & _). reflexivity. }
  split.
  { intros d. rewrite List.in_flat_map. split.
    - intros (line & Hline & Hd'). rewrite (Hx line Hline) in Hd'. exact Hd'.
    - intros Hd'. destruct (columns table) as [|c cs] eqn:Hc; [contradiction|].
      exists (line_of r table c). split; [|exact Hd'].
      rewrite Htraces. left. reflexivity. }
  split; [rewrite Htraces; apply List.length_map|].
  split; [exact Hx|].
  split; [apply window_length; assumption|].
  split; [intros i Hi; apply window_lookup; assumption|].
  unfold window, slice.
  apply strictly_increasing_firstn, strictly_increasing_skipn. exact Hs.
Qed.

Lemma range_containment_witness :
  exists (fig : Figure) (label : Html),
    render (1, 2)%nat gold_table = Some (fig, label) /\
    (forall d, In d (List.flat_map trace_x (traces fig))
               <-> In d (window (1, 2)%nat (index gold_table))) /\
    length (traces fig) = length (columns gold_table) /\
    (forall line, In line (traces fig) ->
                  trace_x line = window (1, 2)%nat (index gold_table)) /\
    length (window (1, 2)%nat (index gold_table)) = S (snd (1, 2) - fst (1, 2))%nat /\
    (forall i, (i <= snd (1, 2) - fst (1, 2))%nat ->
               window (1, 2)%nat (index gold_table) !! i
               = index gold_table !! (fst (1, 2) + i)%nat) /\
    strictly_increasing (window (1, 2)%nat (index gold_table)) = true.
Proof.
  apply (range_containment gold_table (1, 2)%nat).
  - reflexivity.
  - discriminate.
  - unfold valid_range; cbn; lia.
Defined.

(** ** Data preparation *)

Lemma ffill_from_length (xs : list float) (last : float) :
  length (ffill_from last xs) = length xs.
Proof.
  revert last. induction xs as [|x xs IH]; intros last; [reflexivity|].
  cbn. destruct (F64.is_nan x); cbn; rewrite IH; reflexivity.
Qed.

(** A cell that is not missing is kept. *)
Lemma ffill_from_present (xs : list float) (last : float) (i : nat) (v : float) :
  xs !! i = Some v -> F64.is_nan v = false -> ffill_from last xs !! i = Some v.
Proof.
  revert last i. induction xs as [|x xs IH]; intros last i Hv Hnan; [discriminate|].
  destruct i as [|i]; cbn in Hv.
  - injection Hv as ->. cbn. rewrite Hnan. reflexivity.
  - cbn. destruct (F64.is_nan x); cbn; apply IH; assumption.
Qed.

(** A missing cell takes the value carried into the column when every
    earlier cell is missing, and else the nearest earlier value that is
    not missing. *)
Lemma ffill_from_missing (xs : list float) (last : float) (i : nat) (v : float) :
  xs !! i = Some v -> F64.is_nan v = true ->
  ((forall j w, (j < i)%nat -> xs !! j = Some w -> F64.is_nan w = true) /\
   ffill_from last xs !! i = Some last)
  \/
  (exists j w, (j < i)%nat /\ xs !! j = Some w /\ F64.is_nan w = false /\
               (forall k u, (j < k < i)%nat -> xs !! k = Some u -> F64.is_nan u = true) /\
               ffill_from last xs !! i = Some w).
Proof.
  revert last i. induction xs as [|x xs IH]; intros last i Hv Hnan; [discriminate|].
  destruct i as [|i]; cbn in Hv.
  - injection Hv as ->. left. split; [intros j w Hj; lia|].
    cbn. rewrite Hnan. reflexivity.
  - cbn [ffill_from]. destruct (F64.is_nan x) eqn:Hx.
    + destruct (IH last i Hv Hnan) as [[Hall Hi]|(j & w & Hj & Hw & Hwn & Hbetween & Hi)].
      * left. split; [|exact Hi].
        intros [|j] w Hj Hw; cbn in Hw.
        -- injection Hw as <-. exact Hx.
        -- eapply Hall; [|exact Hw]. lia.
      * right. exists (S j), w. repeat split; try assumption; try lia.
        intros [|k] u Hk Hu; [lia|]. cbn in Hu.
        eapply Hbetween; [|exact Hu]. lia.
    + destruct (IH x i Hv Hnan) as [[Hall Hi]|(j & w & Hj & Hw & Hwn & Hbetween & Hi)].
      * right. exists 0%nat, x. repeat split; try assumption; try lia.
        intros [|k] u Hk Hu; [lia|]. cbn in Hu.
        eapply Hall; [|exact Hu]. lia.
      * right. exists (S j), w. repeat split; try assumption; try lia.
        intros [|k] u Hk Hu; [lia|]. cbn in Hu.
        eapply Hbetween; [|exact Hu]. lia.
Qed.

Lemma all_na_ffill_from (xs : list float) (last : float) :
  F64.is_nan last = true -> all_na (ffill_from last xs) = all_na xs.
Proof.
  revert last. induction xs as [|x xs IH]; intros last Hlast; [reflexivity|].
  cbn. destruct (F64.is_nan x) eqn:Hx; cbn.
  - rewrite Hlast. cbn. apply IH. exact Hlast.
  - rewrite Hx. reflexivity.
Qed.

Lemma all_na_false (xs : list float) :
  all_na xs = false -> exists v, In v xs /\ F64.is_nan v = false.
Proof.
  induction xs as [|x xs IH]; [discriminate|].
  cbn. destruct (F64.is_nan x) eqn:Hx; cbn; intros H.
  - destruct (IH H) as (v & Hv & Hn). exists v. auto.
  - exists x. auto.
Qed.

Lemma map_fst_combine {A B} (xs : list A) (ys : list B) :
  length xs = length ys -> List.map fst (List.combine xs ys) = xs.
Proof.
  revert ys. induction xs as [|a xs IH]; intros [|b ys] H; try discriminate;
    [reflexivity|].
  cbn. f_equal. apply IH. cbn in H. lia.
Qed.

Lemma map_snd_combine {A B} (xs : list A) (ys : list B) :
  length xs = length ys -> List.map snd (List.combine xs ys) = ys.
Proof.
  revert ys. induction xs as [|a xs IH]; intros [|b ys] H; try discriminate;
    [reflexivity|].
  cbn. f_equal. apply IH. cbn in H. lia.
Qed.

(** The sort of the index. *)
Lemma insert_key_perm (x : Timestamp * nat) (l : list (Timestamp * nat)) :
  Permutation (insert_key x l) (x :: l).
Proof.
  induction l as [|y l IH]; [reflexivity|].
  cbn. destruct (ts_leb (fst x) (fst y)); [reflexivity|].
  rewrite IH. apply perm_swap.
Qed.

Lemma sort_keys_perm (l : list (Timestamp * nat)) : Permutation (sort_keys l) l.
Proof.
  induction l as [|x l IH]; [reflexivity|].
  cbn. rewrite insert_key_perm, IH. reflexivity.
Qed.

Lemma argsort_perm (idx : list Timestamp) :
  Permutation (argsort idx) (List.seq 0 (length idx)).
Proof.
  unfold argsort.
  rewrite <- (map_snd_combine idx (List.seq 0 (length idx))) at 2
    by (rewrite List.length_seq; reflexivity).
  apply Permutation_map, sort_keys_perm.
Qed.

(** On an index that increases strictly the sort changes nothing. *)
Lemma sort_keys_sorted (idx : list Timestamp) (k : nat) :
  strictly_increasing idx = true ->
  sort_keys (List.combine idx (List.seq k (length idx)))
  = List.combine idx (List.seq k (length idx)).
Proof.
  revert k. induction idx as [|a idx IH]; intros k Hs; [reflexivity|].
  cbn [length List.seq List.combine sort_keys List.fold_right].
  fold (sort_keys (List.combine idx (List.seq (S k) (length idx)))).
  rewrite (IH (S k) (strictly_increasing_tail _ _ Hs)).
  destruct idx as [|b idx]; [reflexivity|].
  cbn [length List.seq List.combine insert_key fst].
  cbn [strictly_increasing] in Hs. apply andb_prop in Hs as [Hab _].
  rewrite (ts_ltb_leb _ _ Hab). reflexivity.
Qed.

Lemma np_take_seq {A} (dflt : A) (xs : list A) :
  np_take dflt (List.seq 0 (length xs)) xs = xs.
Proof.
  unfold np_take. apply list_eq. intros i.
  rewrite lookup_map.
  destruct (xs !! i) as [v|] eqn:Hv.
  - rewrite lookup_seq_lt by (eapply lookup_lt_Some; exact Hv).
    cbn. f_equal. apply nth_lookup_Some. exact Hv.
  - rewrite lookup_seq_ge by (apply lookup_ge_None; exact Hv). reflexivity.
Qed.

Lemma sort_index_sorted (d : DataFrame) :
  frame_wf d -> strictly_increasing (index d) = true -> sort_index d = d.
Proof.
  intros Hwf Hs. destruct d as [idx cs]. unfold sort_index, argsort.
  cbn [index columns] in *.
  rewrite (sort_keys_sorted idx 0 Hs).
  rewrite map_fst_combine, map_snd_combine by (rewrite List.length_seq; reflexivity).
  f_equal.
  unfold frame_wf in Hwf. cbn [index columns] in Hwf.
  induction Hwf as [|c cs Hc Hwf IH]; [reflexivity|].
  cbn [List.map]. rewrite IH. f_equal.
  rewrite <- Hc, np_take_seq. destruct c; reflexivity.
Qed.

Lemma ffill_wf (d : DataFrame) : frame_wf d -> frame_wf (dropna_all (ffill d)).
Proof.
  unfold frame_wf, dropna_all, ffill. cbn [index columns]. intros Hwf.
  apply List.Forall_forall. intros c Hc.
  apply List.filter_In in Hc as [Hc _].
  apply List.in_map_iff in Hc as (c0 & <- & Hc0).
  rewrite List.Forall_forall in Hwf. cbn [snd].
  unfold ffill_column. rewrite ffill_from_length. apply Hwf. exact Hc0.
Qed.

Lemma prepare_sorted (data : DataFrame) :
  frame_wf data -> strictly_increasing (index data) = true ->
  prepare data = dropna_all (ffill data).
Proof.
  intros Hwf Hs. unfold prepare.
  apply sort_index_sorted; [apply ffill_wf; exact Hwf | exact Hs].
Qed.

(** ** C6: no column is empty *)

(** C6: after the preparation every remaining column has a value that is
    not missing, and the remaining columns are those of the raw frame
    that are not missing in every row, in their order. *)
Theorem no_empty_column (data : DataFrame) :
  frame_wfb data = true ->
  (forall c : Column, In c (columns (prepare data)) ->
     exists v : float, In v (snd c) /\ F64.is_nan v = false) /\
  List.map fst (columns (prepare data))
  = List.map fst (List.filter (fun c : Column => negb (all_na (snd c))) (columns data)).
Proof.
  intros Hwfb. pose proof (frame_wfb_wf _ Hwfb) as Hwf.
  pose proof (ffill_wf data Hwf) as Hwf'.
  split.
  - intros c Hc. unfold prepare, sort_index in Hc. cbn [columns] in Hc.
    apply List.in_map_iff in Hc as (c1 & <- & Hc1). cbn [snd].
    unfold frame_wf in Hwf'. rewrite List.Forall_forall in Hwf'.
    pose proof (Hwf' c1 Hc1) as Hlen. cbv beta in Hlen.
    unfold dropna_all in Hc1. cbn [columns] in Hc1.
    apply List.filter_In in Hc1 as [_ Hna].
    apply negb_true_iff, all_na_false in Hna as (v & Hv & Hn).
    exists v. split; [|exact Hn].
    apply (List.In_nth _ _ F64.nan) in Hv as (j & Hj & <-).
    unfold np_take. apply List.in_map_iff. exists j. split; [reflexivity|].
    eapply Permutation_in; [symmetry; apply argsort_perm|].
    apply List.in_seq. lia.
  - unfold prepare, sort_index, dropna_all, ffill. cbn [index columns].
    rewrite List.map_map. cbn [fst].
    induction (columns data) as [|c cs IH]; [reflexivity|].
    cbn [List.map List.filter fst snd]. unfold ffill_column at 1.
    rewrite all_na_ffill_from by reflexivity.
    destruct (all_na (snd c)); cbn [negb List.map fst]; rewrite IH; reflexivity.
Qed.

Lemma no_empty_column_witness :
  (forall c : Column, In c (columns (prepare late_raw)) ->
     exists v : float, In v (snd c) /\ F64.is_nan v = false) /\
  List.map fst (columns (prepare late_raw))
  = List.map fst (List.filter (fun c : Column => negb (all_na (snd c))) (columns late_raw)).
Proof.
  apply (no_empty_column late_raw). reflexivity.
Defined.

(** An index that is not in date order: the fill follows the rows as they
    come and the sort comes after it, so the cell of the earlier date is
    filled from the later one. *)
Example prepare_fills_before_sorting :
  prepare (mkFrame [d28; d27] [("Gold", [F64.of_Z 5; F64.nan])])
  = mkFrame [d27; d28] [("Gold", [F64.of_Z 5; F64.of_Z 5])].
Proof. reflexivity. Qed.

(** ** C5: the example of the full range *)

(** C5, as stated, fails: in binary64 the series of "Gold" over the full
    range is not [0.0, 10.0, -10.0]; its second and third values differ
    from 10.0 and -10.0, also under the comparison of floats. *)
Lemma gold_full_range_counterexample :
  series (render (0, 2)%nat gold_table)
  <> Some [("Gold", [F64.of_Z 0; F64.of_Z 10; F64.of_Z (-10)])]
  /\ SFeqb (perf_cell (F64.of_Z 110) (F64.of_Z 100)) (F64.of_Z 10) = false
  /\ SFeqb (perf_cell (F64.of_Z 90) (F64.of_Z 100)) (F64.of_Z (-10)) = false.
Proof.
  split; [|split; reflexivity].
  vm_compute. intros H. discriminate H.
Qed.

(** C5, amended: on the table of the example the render of the full range
    [(0, 2)] yields for "Gold" the series [0.0, 10.000000000000009,
    -9.999999999999998]: exactly [0], [10 + 5 * 2^-49] and
    [-10 + 2^-49], each within [10^-14] of [0.0, 10.0, -10.0]. *)
Theorem gold_full_range :
  series (render (0, 2)%nat gold_table)
  = Some [("Gold", [F64.zero;
                    S754_finite false 5629499534213125 (-49);
                    S754_finite true 5629499534213119 (-49)])]
  /\ (F64.to_Q (S754_finite false 5629499534213125 (-49))
      == 10 + 5 * / inject_Z (2 ^ 49))%Q
  /\ (F64.to_Q (S754_finite true 5629499534213119 (-49))
      == - (10) + / inject_Z (2 ^ 49))%Q
  /\ (5 * / inject_Z (2 ^ 49) <= 1 / inject_Z (10 ^ 14))%Q.
Proof.
  split; [reflexivity|].
  split; [vm_compute; reflexivity|].
  split; [vm_compute; reflexivity|].
  vm_compute. intros H. discriminate H.
Qed.

(** ** C7 and C8: the callback and the store *)

Lemma update_graph_keeps (st : store) (data : ref) (r : nat * nat)
      (q : nat) (o : object) :
  st !! q = Some o -> snd (update_graph data r st) !! q = Some o.
Proof.
  intros H. destruct (update_graph_extends st data r) as [fresh ->].
  apply lookup_app_l_Some. exact H.
Qed.

(** C7: the outputs of a render (the figure and the label) are a function
    of the selected range and the table: from any two stores that hold the
    same table, at any reference, the callback returns the same outputs,
    those of [render]; and run again in the store it left, it returns them
    again. *)
Theorem render_is_pure (r : nat * nat) (table : DataFrame)
        (st1 st2 : store) (data1 data2 : ref) :
  st1 !! data1 = Some (ObjFrame table) ->
  st2 !! data2 = Some (ObjFrame table) ->
  outputs (update_graph data1 r st1) = outputs (update_graph data2 r st2) /\
  outputs (update_graph data1 r st1) = render r table /\
  outputs (update_graph data1 r (snd (update_graph data1 r st1)))
  = outputs (update_graph data1 r st1).
Proof.
  intros H1 H2.
  rewrite (update_graph_outputs st1 data1 table r H1).
  rewrite (update_graph_outputs st2 data2 table r H2).
  rewrite render_render_value.
  split; [reflexivity|]. split; [reflexivity|].
  apply update_graph_outputs.
  apply update_graph_keeps. exact H1.
Qed.

Lemma render_is_pure_witness :
  outputs (update_graph 0%nat (1, 2)%nat [ObjFrame gold_table])
  = outputs (update_graph 1%nat (1, 2)%nat [ObjSeries []; ObjFrame gold_table]) /\
  outputs (update_graph 0%nat (1, 2)%nat [ObjFrame gold_table])
  = render (1, 2)%nat gold_table /\
  outputs (update_graph 0%nat (1, 2)%nat
             (snd (update_graph 0%nat (1, 2)%nat [ObjFrame gold_table])))
  = outputs (update_graph 0%nat (1, 2)%nat [ObjFrame gold_table]).
Proof.
  apply (render_is_pure (1, 2)%nat gold_table
           [ObjFrame gold_table] [ObjSeries []; ObjFrame gold_table] 0%nat 1%nat);
    reflexivity.
Defined.

(** C8: the callback leaves the price table unchanged, for every selected
    range: after it the store holds the same table at the same reference,
    and every object that was in the store before the call is still there
    unchanged; what the callback writes to are objects it allocated. On a
    price table and a valid range the call returns. *)
Theorem table_unchanged (st : store) (data : ref) (table : DataFrame)
        (r : nat * nat) :
  st !! data = Some (ObjFrame table) ->
  snd (update_graph data r st) !! data = Some (ObjFrame table) /\
  (forall (q : ref) (o : object),
      st !! q = Some o -> snd (update_graph data r st) !! q = Some o) /\
  (price_table table = true -> valid_range r table ->
   exists (fig : ref) (label : Html),
     fst (update_graph data r st) = Some (fig, label) /\
     (length st <= fig)%nat).
Proof.
  intros Hdata.
  split; [apply update_graph_keeps; exact Hdata|].
  split; [intros q o; apply update_graph_keeps|].
  intros Hpt Hvalid.
  destruct (price_table_inv _ Hpt) as (Hwf & Hs & Hd).
  destruct r as [start_idx end_idx]. destruct Hvalid as [Hr Hl]. cbn [fst snd] in *.
  destruct (lookup_lt_is_Some_2 (index table) start_idx ltac:(lia)) as [ds Hds].
  destruct (lookup_lt_is_Some_2 (index table) end_idx ltac:(lia)) as [de Hde].
  pose proof (loc_slice_window table (start_idx, end_idx) ds de Hs Hds Hde) as Hslice.
  pose proof (rebase_columns (loc_slice ds de table)) as Hperf.
  rewrite Hslice in Hperf at 1. cbn [index] in Hperf.
  specialize (Hperf (window_nonempty (start_idx, end_idx) (index table) Hr Hl)).
  destruct (update_graph_run st data table start_idx end_idx ds de _
              Hdata Hds Hde Hperf) as (st' & -> & fresh & ->).
  eexists _, _. split; [reflexivity|].
  rewrite length_app. lia.
Qed.

Lemma table_unchanged_witness :
  snd (update_graph 1%nat (1, 2)%nat [ObjSeries []; ObjFrame gold_table]) !! 1%nat
  = Some (ObjFrame gold_table) /\
  (forall (q : ref) (o : object),
      [ObjSeries []; ObjFrame gold_table] !! q = Some o ->
      snd (update_graph 1%nat (1, 2)%nat [ObjSeries []; ObjFrame gold_table]) !! q
      = Some o) /\
  (price_table gold_table = true -> valid_range (1, 2)%nat gold_table ->
   exists (fig : ref) (label : Html),
     fst (update_graph 1%nat (1, 2)%nat [ObjSeries []; ObjFrame gold_table])
     = Some (fig, label) /\
     (length [ObjSeries []; ObjFrame gold_table] <= fig)%nat).
Proof.
  apply (table_unchanged [ObjSeries []; ObjFrame gold_table] 1%nat gold_table
                         (1, 2)%nat).
  reflexivity.
Defined.

(** ** C9: the label *)

Lemma digit_code (n : nat) : nat_of_ascii (digit n) = (48 + n mod 10)%nat.
Proof.
  unfold digit. apply nat_ascii_embedding.
  pose proof (Nat.mod_upper_bound n 10 ltac:(lia)). lia.
Qed.

Lemma is_digit_digit (n : nat) : is_digit (digit n) = true.
Proof.
  unfold is_digit. rewrite digit_code.
  pose proof (Nat.mod_upper_bound n 10 ltac:(lia)).
  apply andb_true_intro. split; apply Nat.leb_le; lia.
Qed.

Lemma digit_value_digit (n : nat) : digit_value (digit n) = (n mod 10)%nat.
Proof. unfold digit_value. rewrite digit_code. lia. Qed.

(** The text of a date has the form [YYYY-MM-DD]. *)
Lemma strftime_Ymd_form (t : Timestamp) : is_Ymd (strftime_Ymd t) = true.
Proof.
  unfold strftime_Ymd, is_Ymd. rewrite !is_digit_digit. reflexivity.
Qed.

(** It spells the year, the month and the day of the date. *)
Lemma parse_strftime_Ymd (t : Timestamp) :
  calendar_date t = true -> parse_Ymd (strftime_Ymd t) = Some t.
Proof.
  unfold calendar_date. intros H.
  apply andb_prop in H as [H Hd2]. apply andb_prop in H as [H Hd1].
  apply andb_prop in H as [H Hm2]. apply andb_prop in H as [H Hm1].
  apply andb_prop in H as [Hy1 Hy2].
  apply Nat.leb_le in Hy1, Hy2, Hm1, Hm2, Hd1, Hd2.
  destruct t as [y m d]. cbn [year month day] in *.
  unfold strftime_Ymd, parse_Ymd. cbn [year month day].
  rewrite !digit_value_digit. f_equal. f_equal.
  - pose proof (Nat.div_mod_eq y 10).
    pose proof (Nat.div_mod_eq (y / 10) 10).
    pose proof (Nat.div_mod_eq (y / 100) 10).
    replace (y / 100)%nat with (y / 10 / 10)%nat in *
      by (rewrite Nat.Div0.div_div; reflexivity).
    replace (y / 1000)%nat with (y / 10 / 10 / 10)%nat in *
      by (rewrite !Nat.Div0.div_div; reflexivity).
    rewrite (Nat.mod_small (y / 10 / 10 / 10) 10) by lia.
    lia.
  - pose proof (Nat.div_mod_eq m 10).
    assert (m / 10 < 10)%nat by (apply Nat.Div0.div_lt_upper_bound; lia).
    rewrite (Nat.mod_small (m / 10) 10) by lia. lia.
  - pose proof (Nat.div_mod_eq d 10).
    assert (d / 10 < 10)%nat by (apply Nat.Div0.div_lt_upper_bound; lia).
    rewrite (Nat.mod_small (d / 10) 10) by lia. lia.
Qed.

(** C9: for every price table and every valid selected range, the label
    of a render is the date at [start_index], an arrow between two pairs of
    spaces, and the date at [end_index], each in its own span; each date
    is written as [YYYY-MM-DD] and, for a calendar date, these digits
    spell its year, month and day. *)
Theorem range_label (table : DataFrame) (r : nat * nat)
        (start_date end_date : Timestamp) :
  price_table table = true -> valid_range r table ->
  index table !! fst r = Some start_date ->
  index table !! snd r = Some end_date ->
  exists (fig : Figure) (label : Html),
    render r table = Some (fig, label) /\
    label = Span [] [ Span [("color", "#1f77b4"); ("fontWeight", "bold")]
                           [Text (strftime_Ymd start_date)];
                      Span [] [Text "  →  "];
                      Span [("color", "#1f77b4"); ("fontWeight", "bold")]
                           [Text (strftime_Ymd end_date)] ] /\
    text_content label
    = strftime_Ymd start_date +:+ "  →  " +:+ strftime_Ymd end_date /\
    is_Ymd (strftime_Ymd start_date) = true /\
    is_Ymd (strftime_Ymd end_date) = true /\
    (calendar_date start_date = true ->
     parse_Ymd (strftime_Ymd start_date) = Some start_date) /\
    (calendar_date end_date = true ->
     parse_Ymd (strftime_Ymd end_date) = Some end_date).
Proof.
  intros Hpt Hvalid Hstart Hend.
  destruct (render_lines table r Hpt Hvalid)
    as (ds & de & fig & Hds & Hde & Hrender & _).
  rewrite Hstart in Hds. injection Hds as <-.
  rewrite Hend in Hde. injection Hde as <-.
  exists fig, (range_text_of start_date end_date).
  split; [exact Hrender|]. split; [reflexivity|].
  split.
  { reflexivity. }
  auto using strftime_Ymd_form, parse_strftime_Ymd.
Qed.

Lemma range_label_witness :
  exists (fig : Figure) (label : Html),
    render (1, 2)%nat gold_table = Some (fig, label) /\
    label = Span [] [ Span [("color", "#1f77b4"); ("fontWeight", "bold")]
                           [Text (strftime_Ymd d28)];
                      Span [] [Text "  →  "];
                      Span [("color", "#1f77b4"); ("fontWeight", "bold")]
                           [Text (strftime_Ymd d29)] ] /\
    text_content label = strftime_Ymd d28 +:+ "  →  " +:+ strftime_Ymd d29 /\
    is_Ymd (strftime_Ymd d28) = true /\
    is_Ymd (strftime_Ymd d29) = true /\
    (calendar_date d28 = true -> parse_Ymd (strftime_Ymd d28) = Some d28) /\
    (calendar_date d29 = true -> parse_Ymd (strftime_Ymd d29) = Some d29).
Proof.
  apply (range_label gold_table (1, 2)%nat d28 d29).
  - reflexivity.
  - unfold valid_range; cbn; lia.
  - reflexivity.
  - reflexivity.
Defined.

(** The label of the example of the specification. *)
Example range_label_example :
  option_map (fun out => text_content (snd out)) (render (1, 2)%nat gold_table)
  = Some "2021-09-28  →  2021-09-29".
Proof. reflexivity. Qed.

(** ** C10: scaling the prices of a column *)

(** C10, as stated, fails: the products [c * p] are rounded, so the
    quotient of two scaled prices need not be the quotient of the prices.
    With the prices 3 and 7 and the constant 0.1 the last value of the
    line changes from 133.33333333333334 to 133.33333333333331. *)
Lemma scale_invariance_counterexample :
  price_table small_table = true /\
  valid_range (0, 1)%nat small_table /\
  SFltb F64.zero one_tenth = true /\
  series (render (0, 1)%nat small_table)
  = Some [("Gold", [F64.zero; S754_finite false 4691249611844267 (-45)])] /\
  series (render (0, 1)%nat (scale_column one_tenth "Gold" small_table))
  = Some [("Gold", [F64.zero; S754_finite false 4691249611844266 (-45)])] /\
  render (0, 1)%nat (scale_column one_tenth "Gold" small_table)
  <> render (0, 1)%nat small_table.
Proof.
  split; [reflexivity|].
  split; [unfold valid_range; cbn; lia|].
  split; [reflexivity|]. split; [reflexivity|]. split; [reflexivity|].
  intros H. apply (f_equal series) in H. vm_compute in H. discriminate H.
Qed.

Lemma In_window {A} (r : nat * nat) (xs : list A) (v : A) :
  In v (window r xs) -> In v xs.
Proof.
  unfold window, slice. intros H.
  apply list_elem_of_In in H. apply list_elem_of_In.
  eapply subseteq_drop, subseteq_take. exact H.
Qed.

Lemma window_map {A B} (f : A -> B) (r : nat * nat) (xs : list A) :
  window r (List.map f xs) = List.map f (window r xs).
Proof. unfold window, slice. rewrite List.skipn_map, List.firstn_map. reflexivity. Qed.

Lemma rebased_column_pow2 (k : Z) (label : string) (cells : list float) :
  forallb (scales_by k) cells = true ->
  rebased_column (label, List.map (fun v => F64.mul v (F64.pow2 k)) cells)
  = rebased_column (label, cells).
Proof.
  intros Hall. unfold rebased_column. cbn [fst snd]. f_equal.
  rewrite List.map_map. apply List.map_ext_in. intros v Hv.
  rewrite List.forallb_forall in Hall.
  destruct cells as [|b cells]; [destruct Hv|].
  cbn [List.map List.hd].
  apply perf_cell_pow2; apply Hall; [exact Hv | left; reflexivity].
Qed.

(** C10, amended: for every price table, every valid selected range and
    every power of two [c = 2^k] in the range of binary64, multiplying the
    prices of a column by [c] leaves the render unchanged, provided every
    price of the column is zero, missing, infinite, or a normal number
    whose product with [c] is a normal number. *)
Theorem scale_invariance_pow2 (table : DataFrame) (r : nat * nat)
        (label : string) (k : Z) :
  price_table table = true -> valid_range r table ->
  -1022 <= k <= 1023 ->
  (forall c : Column, In c (columns table) -> fst c = label ->
                      forallb (scales_by k) (snd c) = true) ->
  render r (scale_column (F64.pow2 k) label table) = render r table.
Proof.
  intros Hpt Hvalid _ Hcol.
  destruct (price_table_inv _ Hpt) as (_ & Hs & _).
  pose proof Hvalid as [Hr Hl].
  destruct (lookup_lt_is_Some_2 (index table) (fst r) ltac:(lia)) as [ds Hds].
  destruct (lookup_lt_is_Some_2 (index table) (snd r) ltac:(lia)) as [de Hde].
  rewrite !render_render_value. unfold render_value, date_list.
  change (index (scale_column (F64.pow2 k) label table)) with (index table).
  rewrite Hds, Hde.
  rewrite (loc_slice_window table r ds de Hs Hds Hde).
  rewrite (loc_slice_window (scale_column (F64.pow2 k) label table) r ds de Hs Hds Hde).
  rewrite !rebase_columns by (apply window_nonempty; assumption).
  cbn [index columns scale_column]. rewrite !List.map_map.
  replace (List.map (fun c : Column =>
             rebased_column
               (fst (if String.eqb label (fst c)
                     then (fst c, List.map (fun v => F64.mul v (F64.pow2 k)) (snd c))
                     else c),
                window r (snd (if String.eqb label (fst c)
                               then (fst c, List.map (fun v => F64.mul v (F64.pow2 k)) (snd c))
                               else c))))
             (columns table))
    with (List.map (fun c : Column => rebased_column (fst c, window r (snd c)))
                   (columns table)); [reflexivity|].
  apply List.map_ext_in. intros c Hc.
  destruct (String.eqb_spec label (fst c)) as [Heq|Hne]; [|reflexivity].
  cbn [fst snd]. rewrite window_map. symmetry.
  apply rebased_column_pow2.
  apply List.forallb_forall. intros v Hv.
  pose proof (Hcol c Hc (eq_sym Heq)) as Hall.
  rewrite List.forallb_forall in Hall. apply Hall.
  eapply In_window. exact Hv.
Qed.

Lemma scale_invariance_pow2_witness :
  render (0, 2)%nat (scale_column (F64.pow2 1) "Gold" gold_table)
  = render (0, 2)%nat gold_table.
Proof.
  apply (scale_invariance_pow2 gold_table (0, 2)%nat "Gold" 1).
  - reflexivity.
  - unfold valid_range; cbn; lia.
  - lia.
  - intros c [<-|[]] _. reflexivity.
Defined.

(** * Further properties of the code *)

(** ** Sorting the index *)

Lemma ts_leb_total a b : ts_leb a b = false -> ts_leb b a = true.
Proof. ts_order. Qed.

Lemma ts_leb_trans a b c :
  ts_leb a b = true -> ts_leb b c = true -> ts_leb a c = true.
Proof. ts_order. Qed.

Lemma ts_not_ltb_leb a b : ts_ltb a b = false -> ts_leb b a = true.
Proof. ts_order. Qed.

Lemma ts_eqb_eq a b : ts_eqb a b = true -> a = b.
Proof. unfold ts_eqb. ts_order. Qed.

Lemma ts_eqb_refl a : ts_eqb a a = true.
Proof. unfold ts_eqb. ts_order. Qed.

Lemma ts_leb_neq_ltb a b : ts_leb a b = true -> a <> b -> ts_ltb a b = true.
Proof.
  intros Hle Hne. destruct (ts_ltb a b) eqn:Hlt; [reflexivity|].
  exfalso. apply Hne. apply ts_leb_antisym; [exact Hle|].
  revert Hlt. clear. ts_order.
Qed.

Lemma nondecreasing_cons_inv a idx :
  nondecreasing (a :: idx) = true -> nondecreasing idx = true.
Proof.
  destruct idx as [|b idx]; [reflexivity|]. cbn [nondecreasing].
  intros H. apply andb_prop in H. tauto.
Qed.

Lemma insert_key_sorted (x : Timestamp * nat) (l : list (Timestamp * nat)) :
  nondecreasing (List.map fst l) = true ->
  nondecreasing (List.map fst (insert_key x l)) = true.
Proof.
  induction l as [|y l IH]; intros Hs; [reflexivity|].
  cbn [insert_key]. destruct (ts_leb (fst x) (fst y)) eqn:Hxy.
  - cbn [List.map nondecreasing] in *. rewrite Hxy. exact Hs.
  - pose proof (IH (nondecreasing_cons_inv _ _ Hs)) as Hrest.
    cbn [List.map]. destruct l as [|z l].
    + cbn. rewrite (ts_leb_total _ _ Hxy). reflexivity.
    + cbn [insert_key] in *. cbn [List.map nondecreasing] in Hs.
      apply andb_prop in Hs as [Hyz Hs].
      destruct (ts_leb (fst x) (fst z)).
      * cbn [List.map nondecreasing] in *.
        rewrite (ts_leb_total _ _ Hxy). exact Hrest.
      * cbn [List.map nondecreasing] in *. rewrite Hyz. exact Hrest.
Qed.

Lemma sort_keys_sorted_keys (l : list (Timestamp * nat)) :
  nondecreasing (List.map fst (sort_keys l)) = true.
Proof.
  induction l as [|x l IH]; [reflexivity|].
  cbn. apply insert_key_sorted. exact IH.
Qed.

Lemma sort_keys_rows (idx : list Timestamp) :
  Forall (fun p : Timestamp * nat => idx !! snd p = Some (fst p))
         (sort_keys (List.combine idx (List.seq 0 (length idx)))).
Proof.
  eapply Permutation_Forall; [symmetry; apply sort_keys_perm|].
  apply List.Forall_forall. intros [d j] Hin. cbn [fst snd].
  apply (List.In_nth _ _ (d, j)) in Hin as (i & Hi & Hnth).
  rewrite List.length_combine, List.length_seq, Nat.min_id in Hi.
  rewrite List.combine_nth in Hnth by (rewrite List.length_seq; reflexivity).
  injection Hnth as Hd Hj.
  rewrite List.seq_nth in Hj by exact Hi. cbn in Hj. subst j.
  destruct (nth_lookup_or_length idx i d) as [H|H]; [|lia].
  rewrite H, Hd. reflexivity.
Qed.

(** The sorted index, for any frame. *)
Lemma sort_index_sorts_sorted_perm (d : DataFrame) :
  nondecreasing (index (sort_index d)) = true /\
  Permutation (index (sort_index d)) (index d).
Proof.
  unfold sort_index. cbn [index].
  split; [apply sort_keys_sorted_keys|].
  transitivity (List.map fst (List.combine (index d) (List.seq 0 (length (index d))))).
  - apply Permutation_map, sort_keys_perm.
  - rewrite map_fst_combine by (rewrite List.length_seq; reflexivity).
    reflexivity.
Qed.

Lemma argsort_row (idx : list Timestamp) (i j : nat) :
  argsort idx !! i = Some j ->
  (j < length idx)%nat /\
  List.map fst (sort_keys (List.combine idx (List.seq 0 (length idx)))) !! i
  = idx !! j.
Proof.
  intros Hij. split.
  { apply list_elem_of_lookup_2, list_elem_of_In in Hij.
    apply (Permutation_in _ (argsort_perm idx)), List.in_seq in Hij. lia. }
  unfold argsort in Hij. rewrite lookup_map in Hij. rewrite lookup_map.
  destruct (sort_keys (List.combine idx (List.seq 0 (length idx))) !! i)
    as [p|] eqn:Hp; [|discriminate].
  cbn in Hij. injection Hij as <-. cbn.
  pose proof (sort_keys_rows idx) as Hrows.
  rewrite List.Forall_forall in Hrows. symmetry. apply Hrows.
  apply list_elem_of_In. eapply list_elem_of_lookup_2. exact Hp.
Qed.

Lemma np_take_row {A} (dflt : A) (positions : list nat) (xs : list A) (i j : nat) :
  positions !! i = Some j -> (j < length xs)%nat ->
  np_take dflt positions xs !! i = xs !! j.
Proof.
  intros Hij Hj. unfold np_take. rewrite lookup_map, Hij. cbn [option_map].
  destruct (nth_lookup_or_length xs j dflt) as [H|H]; [|lia].
  symmetry. exact H.
Qed.

Lemma argsort_reaches (idx : list Timestamp) (j : nat) :
  (j < length idx)%nat -> exists i, argsort idx !! i = Some j.
Proof.
  intros Hj. apply list_elem_of_lookup_1, list_elem_of_In.
  eapply Permutation_in; [symmetry; apply argsort_perm|].
  apply List.in_seq. lia.
Qed.

(** ** The preparation establishes the invariants of a price table *)

Lemma frame_wf_wfb (d : DataFrame) : frame_wf d -> frame_wfb d = true.
Proof.
  unfold frame_wf, frame_wfb. intros H.
  apply List.forallb_forall. intros c Hc.
  rewrite List.Forall_forall in H. apply Nat.eqb_eq. apply H. exact Hc.
Qed.

Lemma distinct_dates_NoDup (idx : list Timestamp) :
  distinct_dates idx = true -> List.NoDup idx.
Proof.
  induction idx as [|a idx IH]; intros H; [constructor|].
  cbn [distinct_dates] in H. apply andb_prop in H as [Ha H].
  constructor; [|apply IH; exact H].
  intros Hin. apply negb_true_iff in Ha.
  assert (existsb (ts_eqb a) idx = true) as Ht; [|congruence].
  apply List.existsb_exists. exists a. split; [exact Hin | apply ts_eqb_refl].
Qed.

Lemma nondecreasing_strict (idx : list Timestamp) :
  nondecreasing idx = true -> List.NoDup idx -> strictly_increasing idx = true.
Proof.
  induction idx as [|a idx IH]; intros Hs Hnd; [reflexivity|].
  destruct idx as [|b idx]; [reflexivity|].
  cbn [nondecreasing strictly_increasing] in *.
  apply andb_prop in Hs as [Hab Hs].
  inversion Hnd as [|? ? Hnotin Hnd']; subst.
  rewrite (IH Hs Hnd'), andb_true_r.
  apply ts_leb_neq_ltb; [exact Hab|].
  intros ->. apply Hnotin. left. reflexivity.
Qed.

Lemma sort_index_wf (d : DataFrame) : frame_wf (sort_index d).
Proof.
  unfold frame_wf, sort_index. cbn [index columns].
  apply List.Forall_forall. intros c Hc.
  apply List.in_map_iff in Hc as (c0 & <- & _). cbn [snd].
  unfold np_take, argsort. rewrite !List.length_map. reflexivity.
Qed.

Lemma distinct_filter (f : Column -> bool) (cs : list Column) :
  distinct (List.map fst cs) = true ->
  distinct (List.map fst (List.filter f cs)) = true.
Proof.
  induction cs as [|c cs IH]; intros H; [reflexivity|].
  cbn [List.map distinct] in H. apply andb_prop in H as [Hc H].
  cbn [List.filter]. destruct (f c); [|apply IH; exact H].
  cbn [List.map distinct]. rewrite (IH H), andb_true_r.
  apply negb_true_iff in Hc. apply negb_true_iff.
  destruct (existsb (String.eqb (fst c)) (List.map fst (List.filter f cs))) eqn:He;
    [|reflexivity].
  apply List.existsb_exists in He as (a & Ha & Heq).
  assert (existsb (String.eqb (fst c)) (List.map fst cs) = true) as Ht; [|congruence].
  apply List.existsb_exists. exists a. split; [|exact Heq].
  apply List.in_map_iff in Ha as (c1 & <- & Hc1).
  apply List.in_map. apply List.filter_In in Hc1. tauto.
Qed.

Lemma prepare_makes_price_table (data : DataFrame) :
  frame_wfb data = true ->
  distinct_dates (index data) = true ->
  distinct (List.map fst (columns data)) = true ->
  price_table (prepare data) = true.
Proof.
  intros Hwfb Hdates Hlabels.
  pose proof (ffill_wf data (frame_wfb_wf _ Hwfb)) as Hwf'.
  unfold price_table.
  apply andb_true_intro. split; [apply andb_true_intro; split|].
  - apply frame_wf_wfb, sort_index_wf.
  - destruct (sort_index_sorts_sorted_perm (dropna_all (ffill data))) as [Hs Hp].
    apply nondecreasing_strict; [exact Hs|].
    eapply Permutation_NoDup; [symmetry; exact Hp|].
    apply distinct_dates_NoDup. exact Hdates.
  - unfold prepare, sort_index, dropna_all, ffill. cbn [index columns].
    rewrite List.map_map. cbn [fst].
    match goal with
    | |- distinct (List.map _ (List.filter ?f _)) = true =>
        apply (distinct_filter f)
    end.
    rewrite List.map_map. exact Hlabels.
Qed.

(** X2: from any frame with one cell per date in every column, pairwise
    different dates and pairwise different labels, in whatever row order,
    the preparation yields a price table: one cell per date, dates that
    increase strictly, unique labels. *)
Theorem prepare_price_table (data : DataFrame) :
  frame_wfb data = true ->
  distinct_dates (index data) = true ->
  distinct (List.map fst (columns data)) = true ->
  price_table (prepare data) = true.
Proof. apply prepare_makes_price_table. Qed.

Lemma prepare_price_table_witness : price_table (prepare unsorted_frame) = true.
Proof.
  apply (prepare_price_table unsorted_frame); reflexivity.
Defined.

(** X1: on a frame with one cell per date in every column and pairwise
    different dates, [sort_index] puts the dates in strictly increasing
    order and keeps every row whole: the new index is a rearrangement of
    the old one, the labels are unchanged, every row of the frame is a row
    of the result, and row [i] of the result is row [j] of the frame, date
    and cell of every column, where [j] is the i-th position of the
    sort. *)
Theorem sort_index_sorts_rows (d : DataFrame) :
  frame_wfb d = true ->
  distinct_dates (index d) = true ->
  strictly_increasing (index (sort_index d)) = true /\
  Permutation (index (sort_index d)) (index d) /\
  Permutation (argsort (index d)) (List.seq 0 (length (index d))) /\
  List.map fst (columns (sort_index d)) = List.map fst (columns d) /\
  forall (i j : nat), argsort (index d) !! i = Some j ->
    index (sort_index d) !! i = index d !! j /\
    forall (k : nat) (c : Column), columns d !! k = Some c ->
      exists c' : Column,
        columns (sort_index d) !! k = Some c' /\ fst c' = fst c /\
        snd c' !! i = snd c !! j.
Proof.
  intros Hwfb Hdates. pose proof (frame_wfb_wf _ Hwfb) as Hwf.
  destruct (sort_index_sorts_sorted_perm d) as [Hsorted Hperm].
  split.
  { apply nondecreasing_strict; [exact Hsorted|].
    eapply Permutation_NoDup; [symmetry; exact Hperm|].
    apply distinct_dates_NoDup. exact Hdates. }
  split; [exact Hperm|].
  split; [apply argsort_perm|].
  destruct d as [idx cs]. unfold sort_index. cbn [index columns] in *.
  split; [rewrite List.map_map; reflexivity|].
  intros i j Hij. destruct (argsort_row idx i j Hij) as [Hj Hidx].
  split; [exact Hidx|].
  intros k c Hc. exists (fst c, np_take F64.nan (argsort idx) (snd c)).
  rewrite lookup_map, Hc. cbn [option_map fst snd].
  split; [reflexivity|]. split; [reflexivity|].
  apply np_take_row; [exact Hij|].
  unfold frame_wf in Hwf. cbn [index columns] in Hwf.
  rewrite List.Forall_forall in Hwf.
  rewrite (Hwf c); [exact Hj|].
  apply list_elem_of_In. eapply list_elem_of_lookup_2. exact Hc.
Qed.

Lemma sort_index_sorts_rows_witness :
  strictly_increasing (index (sort_index unsorted_frame)) = true /\
  Permutation (index (sort_index unsorted_frame)) (index unsorted_frame) /\
  Permutation (argsort (index unsorted_frame))
              (List.seq 0 (length (index unsorted_frame))) /\
  List.map fst (columns (sort_index unsorted_frame))
  = List.map fst (columns unsorted_frame) /\
  forall (i j : nat), argsort (index unsorted_frame) !! i = Some j ->
    index (sort_index unsorted_frame) !! i = index unsorted_frame !! j /\
    forall (k : nat) (c : Column), columns unsorted_frame !! k = Some c ->
      exists c' : Column,
        columns (sort_index unsorted_frame) !! k = Some c' /\ fst c' = fst c /\
        snd c' !! i = snd c !! j.
Proof.
  apply (sort_index_sorts_rows unsorted_frame); reflexivity.
Defined.

(** ** C4: forward fill *)

(** C4, as stated, fails on a download whose rows are not in date order:
    line 35 fills down the rows as they come and sorts afterwards. With
    the rows of the 28th, the 27th and the 29th, the cell of the 28th is
    missing and stays missing although the earlier date has a value; with
    the rows of the 28th and the 27th, the cell of the 27th has no earlier
    date and is filled from the later one. *)
Lemma forward_fill_counterexample :
  prepare late_row_first
  = mkFrame [d27; d28; d29] [("Gold", [F64.of_Z 5; F64.nan; F64.of_Z 6])] /\
  prepare early_row_last
  = mkFrame [d27; d28] [("Gold", [F64.of_Z 5; F64.of_Z 5])].
Proof. split; reflexivity. Qed.

(** C4, amended: the fill follows the rows of the raw data in the order
    they come in, which is the date order when the raw data are in date
    order. For raw data with one cell per date in every column and
    pairwise different dates, after the preparation every column of the
    raw data that has a value remains, under its label and with as many
    cells, and for the cell at every date of it: a cell that was not
    missing is kept; a cell that was missing and has a value in an earlier
    raw row equals the nearest such value (all cells between the two are
    missing); a cell that was missing and has no value in an earlier raw
    row stays missing. When the raw dates increase, the dates are
    unchanged and every cell keeps its position. *)
Theorem forward_fill (data : DataFrame) :
  frame_wfb data = true -> distinct_dates (index data) = true ->
  (strictly_increasing (index data) = true -> index (prepare data) = index data) /\
  forall c : Column, In c (columns data) -> all_na (snd c) = false ->
    exists c' : Column,
      In c' (columns (prepare data)) /\ fst c' = fst c /\
      length (snd c') = length (snd c) /\
      forall (i : nat) (d : Timestamp) (v : float),
        index data !! i = Some d -> snd c !! i = Some v ->
        exists i' : nat,
          index (prepare data) !! i' = Some d /\
          (strictly_increasing (index data) = true -> i' = i) /\
          (F64.is_nan v = false -> snd c' !! i' = Some v) /\
          (F64.is_nan v = true ->
           (exists j w, (j < i)%nat /\ snd c !! j = Some w /\ F64.is_nan w = false) ->
           exists j w, (j < i)%nat /\ snd c !! j = Some w /\ F64.is_nan w = false /\
                       (forall k u, (j < k < i)%nat -> snd c !! k = Some u ->
                                    F64.is_nan u = true) /\
                       snd c' !! i' = Some w) /\
          (F64.is_nan v = true ->
           (forall j w, (j < i)%nat -> snd c !! j = Some w -> F64.is_nan w = true) ->
           snd c' !! i' = Some F64.nan).
Proof.
  intros Hwfb Hdates. pose proof (frame_wfb_wf _ Hwfb) as Hwf.
  split; [intros Hs; rewrite (prepare_sorted data Hwf Hs); reflexivity|].
  intros c Hc Hna.
  assert (Hlen : length (snd c) = length (index data)).
  { unfold frame_wf in Hwf. rewrite List.Forall_forall in Hwf. apply Hwf, Hc. }
  exists (fst c, np_take F64.nan (argsort (index data)) (ffill_column (snd c))).
  split.
  { unfold prepare, sort_index, dropna_all, ffill. cbn [index columns].
    apply List.in_map_iff. exists (fst c, ffill_column (snd c)).
    split; [reflexivity|]. apply List.filter_In. split.
    - apply List.in_map_iff. exists c. split; [reflexivity | exact Hc].
    - cbn [snd]. unfold ffill_column.
      rewrite all_na_ffill_from by reflexivity. rewrite Hna. reflexivity. }
  split; [reflexivity|]. cbn [snd].
  split.
  { unfold np_take. rewrite List.length_map.
    rewrite (Permutation_length (argsort_perm (index data))), List.length_seq.
    symmetry. exact Hlen. }
  intros i d v Hd Hv.
  pose proof (lookup_lt_Some _ _ _ Hd) as Hi.
  destruct (argsort_reaches (index data) i Hi) as [i' Hi'].
  destruct (argsort_row (index data) i' i Hi') as [_ Hrow].
  exists i'.
  assert (Hdate : index (prepare data) !! i' = Some d).
  { unfold prepare, sort_index, dropna_all, ffill. cbn [index columns].
    rewrite Hrow. exact Hd. }
  split; [exact Hdate|].
  split.
  { intros Hs. rewrite (prepare_sorted data Hwf Hs) in Hdate.
    cbn [index dropna_all ffill] in Hdate.
    apply distinct_dates_NoDup, NoDup_ListNoDup in Hdates.
    eapply NoDup_lookup; eassumption. }
  assert (Hcell : np_take F64.nan (argsort (index data)) (ffill_column (snd c)) !! i'
                  = ffill_column (snd c) !! i).
  { apply np_take_row; [exact Hi'|].
    unfold ffill_column. rewrite ffill_from_length. lia. }
  rewrite Hcell. unfold ffill_column.
  split; [|split].
  - intros Hnan. apply ffill_from_present; assumption.
  - intros Hnan (j0 & w0 & Hj0 & Hw0 & Hn0).
    destruct (ffill_from_missing (snd c) F64.nan i v Hv Hnan)
      as [[Hall _]|(j & w & H)].
    + rewrite (Hall j0 w0 Hj0 Hw0) in Hn0. discriminate.
    + exists j, w. exact H.
  - intros Hnan Hall.
    destruct (ffill_from_missing (snd c) F64.nan i v Hv Hnan)
      as [[_ Hfill]|(j & w & Hj & Hw & Hn & _)].
    + exact Hfill.
    + rewrite (Hall j w Hj Hw) in Hn. discriminate.
Qed.

Lemma forward_fill_witness :
  (strictly_increasing (index late_row_first) = true ->
   index (prepare late_row_first) = index late_row_first) /\
  forall c : Column, In c (columns late_row_first) -> all_na (snd c) = false ->
    exists c' : Column,
      In c' (columns (prepare late_row_first)) /\ fst c' = fst c /\
      length (snd c') = length (snd c) /\
      forall (i : nat) (d : Timestamp) (v : float),
        index late_row_first !! i = Some d -> snd c !! i = Some v ->
        exists i' : nat,
          index (prepare late_row_first) !! i' = Some d /\
          (strictly_increasing (index late_row_first) = true -> i' = i) /\
          (F64.is_nan v = false -> snd c' !! i' = Some v) /\
          (F64.is_nan v = true ->
           (exists j w, (j < i)%nat /\ snd c !! j = Some w /\ F64.is_nan w = false) ->
           exists j w, (j < i)%nat /\ snd c !! j = Some w /\ F64.is_nan w = false /\
                       (forall k u, (j < k < i)%nat -> snd c !! k = Some u ->
                                    F64.is_nan u = true) /\
                       snd c' !! i' = Some w) /\
          (F64.is_nan v = true ->
           (forall j w, (j < i)%nat -> snd c !! j = Some w -> F64.is_nan w = true) ->
           snd c' !! i' = Some F64.nan).
Proof.
  apply (forward_fill late_row_first); reflexivity.
Defined.

(** ** The forward fill *)

Lemma ffill_from_present_last (xs : list float) (last : float) :
  F64.is_nan last = false ->
  forallb (fun v => negb (F64.is_nan v)) (ffill_from last xs) = true.
Proof.
  revert last. induction xs as [|x xs IH]; intros last Hlast; [reflexivity|].
  cbn [ffill_from]. destruct (F64.is_nan x) eqn:Hx; cbn [forallb].
  - rewrite Hlast, (IH last Hlast). reflexivity.
  - rewrite Hx, (IH x Hx). reflexivity.
Qed.

Lemma ffill_from_no_gap (xs : list float) (last : float) (i j : nat) (v w : float) :
  (i < j)%nat ->
  ffill_from last xs !! i = Some v -> F64.is_nan v = false ->
  ffill_from last xs !! j = Some w -> F64.is_nan w = false.
Proof.
  revert last i j. induction xs as [|x xs IH]; intros last i j Hij Hv Hn Hw;
    [discriminate|].
  destruct j as [|j]; [lia|].
  cbn [ffill_from] in Hv, Hw.
  destruct i as [|i].
  - assert (Hall : exists l, F64.is_nan l = false /\
                             ffill_from l xs !! j = Some w).
    { destruct (F64.is_nan x) eqn:Hx; cbn in Hv, Hw.
      - injection Hv as ->. eauto.
      - eauto. }
    destruct Hall as (l & Hl & Hw').
    pose proof (ffill_from_present_last xs l Hl) as Hf.
    rewrite List.forallb_forall in Hf.
    apply negb_true_iff. apply Hf.
    apply list_elem_of_In. eapply list_elem_of_lookup_2. exact Hw'.
  - destruct (F64.is_nan x); cbn in Hv, Hw;
      eapply (IH _ i j); try eassumption; lia.
Qed.

Lemma ffill_from_idem (xs : list float) (last : float) :
  ffill_from last (ffill_from last xs) = ffill_from last xs.
Proof.
  revert last. induction xs as [|x xs IH]; intros last; [reflexivity|].
  cbn [ffill_from]. destruct (F64.is_nan x) eqn:Hx; cbn [ffill_from].
  - destruct (F64.is_nan last); rewrite IH; reflexivity.
  - rewrite Hx, IH. reflexivity.
Qed.

Lemma ffill_leaves_gaps (d : DataFrame) (c : Column) (i j : nat) (v w : float) :
  In c (columns (ffill d)) ->
  (i < j)%nat ->
  snd c !! i = Some v -> F64.is_nan v = false ->
  snd c !! j = Some w ->
  F64.is_nan w = false.
Proof.
  intros Hc Hij Hv Hn Hw.
  unfold ffill in Hc. cbn [columns] in Hc.
  apply List.in_map_iff in Hc as (c0 & <- & _). cbn [snd] in *.
  eapply ffill_from_no_gap; eassumption.
Qed.

(** X3: after [ffill] a column has no gap behind a value: once a cell is
    not missing, no later cell of the column is missing. The missing
    cells that remain are those before the first value. *)
Theorem ffill_leaves_leading_gaps_only (d : DataFrame) (c : Column)
        (i j : nat) (v w : float) :
  In c (columns (ffill d)) ->
  (i < j)%nat ->
  snd c !! i = Some v -> F64.is_nan v = false ->
  snd c !! j = Some w ->
  F64.is_nan w = false.
Proof.
  apply ffill_leaves_gaps.
Qed.

Lemma ffill_leaves_leading_gaps_only_witness :
  F64.is_nan (F64.of_Z 100) = false.
Proof.
  apply (ffill_leaves_leading_gaps_only late_raw
           ("Gold", [F64.of_Z 100; F64.of_Z 100; F64.of_Z 90])
           0%nat 1%nat (F64.of_Z 100) (F64.of_Z 100)).
  - left. reflexivity.
  - lia.
  - reflexivity.
  - reflexivity.
  - reflexivity.
Defined.

Lemma ffill_column_idem (xs : list float) :
  ffill_column (ffill_column xs) = ffill_column xs.
Proof. apply ffill_from_idem. Qed.

Lemma dropna_ffill_fixed (d : DataFrame) :
  dropna_all (ffill (dropna_all (ffill d))) = dropna_all (ffill d).
Proof.
  unfold dropna_all, ffill. cbn [index columns]. f_equal.
  induction (columns d) as [|c cs IH]; [reflexivity|].
  cbn [List.map List.filter fst snd].
  destruct (all_na (ffill_column (snd c))) eqn:Hna; cbn [negb]; [exact IH|].
  cbn [List.map List.filter fst snd].
  rewrite ffill_column_idem, Hna. cbn [negb]. f_equal. exact IH.
Qed.

(** X4: on a frame whose dates are in order, preparing twice is
    preparing once. *)
Theorem prepare_idempotent (data : DataFrame) :
  frame_wfb data = true -> strictly_increasing (index data) = true ->
  prepare (prepare data) = prepare data.
Proof.
  intros Hwfb Hs. pose proof (frame_wfb_wf _ Hwfb) as Hwf.
  rewrite (prepare_sorted data Hwf Hs).
  rewrite (prepare_sorted (dropna_all (ffill data)) (ffill_wf _ Hwf) Hs).
  apply dropna_ffill_fixed.
Qed.

Lemma prepare_idempotent_witness :
  prepare (prepare late_raw) = prepare late_raw.
Proof.
  apply (prepare_idempotent late_raw); reflexivity.
Defined.

(** Preparing twice is not preparing once when the rows are out of date
    order: the sort brings a missing cell behind a value, and the second
    fill closes it. *)
Example prepare_twice_unsorted :
  prepare (mkFrame [d28; d27; d29] [("Gold", [F64.nan; F64.of_Z 5; F64.of_Z 6])])
  = mkFrame [d27; d28; d29] [("Gold", [F64.of_Z 5; F64.nan; F64.of_Z 6])]
  /\ prepare (prepare (mkFrame [d28; d27; d29]
                               [("Gold", [F64.nan; F64.of_Z 5; F64.of_Z 6])]))
     = mkFrame [d27; d28; d29] [("Gold", [F64.of_Z 5; F64.of_Z 5; F64.of_Z 6])].
Proof. split; reflexivity. Qed.

(** ** The label slice on an index in ascending order *)

Section SliceBetween.

Context {A : Type} (key : A -> Timestamp).

Lemma nondecreasing_head (a : Timestamp) (idx : list Timestamp) :
  nondecreasing (a :: idx) = true -> Forall (fun d => ts_leb a d = true) idx.
Proof.
  revert a. induction idx as [|b idx IH]; intros a H; [constructor|].
  cbn [nondecreasing] in H. apply andb_prop in H as [Hab H].
  constructor; [exact Hab|].
  eapply Forall_impl; [apply IH; exact H|].
  intros d Hd. cbv beta in *. eapply ts_leb_trans; eassumption.
Qed.

Lemma filter_above (s e : Timestamp) (l : list A) :
  Forall (fun d => ts_leb d e = false) (List.map key l) ->
  List.filter (fun p => between s e (key p)) l = [].
Proof.
  intros H. apply filter_none. intros p Hp.
  rewrite List.Forall_forall in H. unfold between.
  rewrite (H (key p) (List.in_map key l p Hp)). apply andb_false_r.
Qed.

Lemma above_from_head (a e : Timestamp) (idx : list Timestamp) :
  ts_leb a e = false -> Forall (fun d => ts_leb a d = true) idx ->
  Forall (fun d => ts_leb d e = false) idx.
Proof.
  intros Hae H. eapply Forall_impl; [exact H|].
  intros d Hd. cbv beta in *.
  destruct (ts_leb d e) eqn:Hde; [|reflexivity].
  rewrite (ts_leb_trans _ _ _ Hd Hde) in Hae. discriminate.
Qed.

Lemma firstn_searchsorted_right (s e : Timestamp) (l : list A) :
  nondecreasing (List.map key l) = true ->
  Forall (fun d => ts_leb s d = true) (List.map key l) ->
  List.firstn (searchsorted_right (List.map key l) e) l
  = List.filter (fun p => between s e (key p)) l.
Proof.
  induction l as [|p l IH]; intros Hs Hall; [reflexivity|].
  cbn [List.map searchsorted_right List.filter] in *.
  inversion Hall as [|? ? Hp Hall']; subst.
  unfold between at 1. rewrite Hp. cbn [andb].
  destruct (ts_leb (key p) e) eqn:Hpe.
  - cbn [List.firstn]. f_equal.
    apply IH; [eapply nondecreasing_cons_inv; exact Hs | exact Hall'].
  - cbn [List.firstn]. symmetry. apply filter_above.
    eapply above_from_head; [exact Hpe | apply nondecreasing_head; exact Hs].
Qed.

(** On keys in ascending order, the rows between the two positions found
    by [searchsorted] are the rows whose key lies between the bounds. *)
Lemma slice_between (s e : Timestamp) (l : list A) :
  nondecreasing (List.map key l) = true ->
  slice (searchsorted_left (List.map key l) s)
        (searchsorted_right (List.map key l) e) l
  = List.filter (fun p => between s e (key p)) l.
Proof.
  induction l as [|p l IH]; intros Hs; [reflexivity|].
  cbn [List.map searchsorted_left].
  destruct (ts_ltb (key p) s) eqn:Hps.
  - assert (Hsp : ts_leb s (key p) = false) by (apply ts_ltb_not_leb; exact Hps).
    cbn [searchsorted_right List.filter].
    unfold between at 1. rewrite Hsp. cbn [andb].
    destruct (ts_leb (key p) e) eqn:Hpe.
    + unfold slice. cbn [List.skipn Nat.sub].
      apply IH. eapply nondecreasing_cons_inv. exact Hs.
    + unfold slice. cbn [Nat.sub List.firstn]. symmetry. apply filter_above.
      eapply above_from_head; [exact Hpe | apply nondecreasing_head; exact Hs].
  - assert (Hsp : ts_leb s (key p) = true).
    { apply ts_not_ltb_leb. exact Hps. }
    unfold slice. rewrite Nat.sub_0_r. cbn [List.skipn].
    apply (firstn_searchsorted_right s e (p :: l) Hs).
    cbn [List.map]. constructor; [exact Hsp|].
    eapply Forall_impl; [apply nondecreasing_head; exact Hs|].
    intros d Hd. cbv beta in *. eapply ts_leb_trans; eassumption.
Qed.

End SliceBetween.

Lemma slice_combine {A B} (lo hi : nat) (xs : list A) (ys : list B) :
  slice lo hi (List.combine xs ys) = List.combine (slice lo hi xs) (slice lo hi ys).
Proof.
  unfold slice.
  assert (Hskip : forall n (xs : list A) (ys : list B),
             List.skipn n (List.combine xs ys)
             = List.combine (List.skipn n xs) (List.skipn n ys)).
  { clear. induction n as [|n IH]; intros [|a xs] [|b ys]; cbn; try reflexivity.
    - destruct (List.skipn n xs); reflexivity.
    - apply IH. }
  rewrite Hskip. apply List.combine_firstn.
Qed.

(** X5: on a frame whose dates are in ascending order (equal dates
    allowed), [loc[start_date:end_date]] keeps exactly the rows whose date
    lies between the two dates, both included, in their order: in the
    index and, with the same rows, in every column. *)
Theorem loc_slice_between (d : DataFrame) (start_date end_date : Timestamp) :
  frame_wfb d = true -> nondecreasing (index d) = true ->
  index (loc_slice start_date end_date d)
  = List.filter (between start_date end_date) (index d) /\
  List.map fst (columns (loc_slice start_date end_date d))
  = List.map fst (columns d) /\
  forall (k : nat) (c : Column), columns d !! k = Some c ->
    exists c' : Column,
      columns (loc_slice start_date end_date d) !! k = Some c' /\
      dated (loc_slice start_date end_date d) c'
      = List.filter (fun p => between start_date end_date (fst p)) (dated d c).
Proof.
  intros Hwfb Hs. pose proof (frame_wfb_wf _ Hwfb) as Hwf.
  unfold loc_slice. cbn [index columns].
  split.
  { pose proof (slice_between (fun t : Timestamp => t) start_date end_date (index d))
      as H.
    rewrite List.map_id in H. apply H. exact Hs. }
  split; [rewrite List.map_map; reflexivity|].
  intros k c Hc. eexists. rewrite lookup_map, Hc. cbn [option_map].
  split; [reflexivity|].
  unfold dated. cbn [index snd]. rewrite <- slice_combine.
  unfold frame_wf in Hwf. rewrite List.Forall_forall in Hwf.
  assert (Hlen : length (snd c) = length (index d)).
  { apply Hwf. apply list_elem_of_In. eapply list_elem_of_lookup_2. exact Hc. }
  pose proof (slice_between (@fst Timestamp float) start_date end_date
                (List.combine (index d) (snd c))) as H.
  rewrite map_fst_combine in H by (symmetry; exact Hlen).
  apply H. exact Hs.
Qed.

Lemma loc_slice_between_witness :
  index (loc_slice d28 d29 late_table)
  = List.filter (between d28 d29) (index late_table) /\
  List.map fst (columns (loc_slice d28 d29 late_table))
  = List.map fst (columns late_table) /\
  forall (k : nat) (c : Column), columns late_table !! k = Some c ->
    exists c' : Column,
      columns (loc_slice d28 d29 late_table) !! k = Some c' /\
      dated (loc_slice d28 d29 late_table) c'
      = List.filter (fun p => between d28 d29 (fst p)) (dated late_table c).
Proof.
  apply (loc_slice_between late_table d28 d29); reflexivity.
Defined.

(** ** Ranges on which the callback raises *)

Lemma render_none_iff_invalid (table : DataFrame) (r : nat * nat) :
  price_table table = true ->
  (render r table = None <-> ~ valid_range r table).
Proof.
  intros Hpt. destruct (price_table_inv _ Hpt) as (Hwf & Hs & Hd).
  split.
  - intros Hnone Hvalid.
    destruct (render_lines table r Hpt Hvalid) as (ds & de & fig & _ & _ & H & _).
    congruence.
  - intros Hnot. rewrite render_render_value. unfold render_value, date_list.
    destruct (index table !! fst r) as [ds|] eqn:Hds; [|reflexivity].
    destruct (index table !! snd r) as [de|] eqn:Hde; [|reflexivity].
    rewrite (loc_slice_window table r ds de Hs Hds Hde).
    apply lookup_lt_Some in Hds, Hde.
    assert (Hcross : (snd r < fst r)%nat).
    { unfold valid_range in Hnot. lia. }
    unfold rebase, iloc0, window, slice. cbn [index].
    replace (S (snd r) - fst r)%nat with 0%nat by lia. reflexivity.
Qed.

Lemma py_position_lt (len : nat) (i : Z) (p : nat) :
  py_position len i = Some p -> (p < len)%nat.
Proof.
  unfold py_position.
  destruct (Z.leb_spec 0 i) as [Hi|Hi].
  - destruct (Z.ltb_spec i (Z.of_nat len)) as [Hlt|Hge]; [|discriminate].
    intros Hp. injection Hp as <-. lia.
  - destruct (Z.leb_spec 0 (Z.of_nat len + i)) as [Hle|Hgt]; [|discriminate].
    intros Hp. injection Hp as <-. lia.
Qed.

Lemma render_int_positions (table : DataFrame) (r : Z * Z) :
  render_int r table
  = match py_position (length (index table)) (fst r),
          py_position (length (index table)) (snd r) with
    | Some start_idx, Some end_idx => render (start_idx, end_idx) table
    | _, _ => None
    end.
Proof.
  unfold render_int, update_graph_int, date_list.
  rewrite (bind_get_frame 0%nat table _ [ObjFrame table] eq_refl).
  destruct (py_position (length (index table)) (fst r)) as [s|]; [|reflexivity].
  cbn [lift]. unfold bind at 1. cbn [ret].
  destruct (py_position (length (index table)) (snd r)) as [e|]; [|reflexivity].
  cbn [lift]. unfold bind at 1. cbn [ret]. reflexivity.
Qed.

(** X6: the ranges on which the callback raises, for a price table and
    any pair of Python [int]s. Each index is read as Python reads it, a
    negative one from the end. The callback returns exactly when both
    indices lie within [-len .. len - 1] and the position of the start is
    not after the position of the end; it raises on every other pair: on
    an index out of these bounds ([IndexError] of [date_list[...]]) and on
    a start after the end (the slice is empty and [iloc[0]] raises). When
    it returns, its outputs are those of the render at the two
    positions. *)
Theorem render_raises_iff (table : DataFrame) (r : Z * Z) :
  price_table table = true ->
  (render_int r table = None <->
   ~ exists start_idx end_idx : nat,
       py_position (length (index table)) (fst r) = Some start_idx /\
       py_position (length (index table)) (snd r) = Some end_idx /\
       (start_idx <= end_idx)%nat) /\
  (forall start_idx end_idx : nat,
      py_position (length (index table)) (fst r) = Some start_idx ->
      py_position (length (index table)) (snd r) = Some end_idx ->
      render_int r table = render (start_idx, end_idx) table).
Proof.
  intros Hpt. rewrite render_int_positions. split.
  - destruct (py_position (length (index table)) (fst r)) as [s|] eqn:Hs.
    2:{ split; [|reflexivity]. intros _ (s & e & H & _). discriminate. }
    destruct (py_position (length (index table)) (snd r)) as [e|] eqn:He.
    2:{ split; [|reflexivity]. intros _ (s' & e' & _ & H & _). discriminate. }
    rewrite (render_none_iff_invalid table (s, e) Hpt).
    apply py_position_lt in He. unfold valid_range. cbn [fst snd]. split.
    + intros Hnot (s' & e' & Hs' & He' & Hle).
      injection Hs' as <-. injection He' as <-. apply Hnot. lia.
    + intros Hnot [Hle _]. apply Hnot. exists s, e. auto.
  - intros s e -> ->. reflexivity.
Qed.

Lemma render_raises_iff_witness :
  (render_int (-1, 0) gold_table = None <->
   ~ exists start_idx end_idx : nat,
       py_position (length (index gold_table)) (fst (-1, 0)) = Some start_idx /\
       py_position (length (index gold_table)) (snd (-1, 0)) = Some end_idx /\
       (start_idx <= end_idx)%nat) /\
  (forall start_idx end_idx : nat,
      py_position (length (index gold_table)) (fst (-1, 0)) = Some start_idx ->
      py_position (length (index gold_table)) (snd (-1, 0)) = Some end_idx ->
      render_int (-1, 0) gold_table = render (start_idx, end_idx) gold_table).
Proof.
  apply (render_raises_iff gold_table (-1, 0)). reflexivity.
Defined.

(** The pair [(0, -1)] is the whole table, the pairs [(-1, 0)] and
    [(2, 1)] are crossed, and [(0, 3)] is past the last date. *)
Example render_int_examples :
  render_int (0, -1) gold_table = render (0, 2)%nat gold_table /\
  render (0, 2)%nat gold_table <> None /\
  render_int (-1, 0) gold_table = None /\
  render_int (2, 1) gold_table = None /\
  render_int (0, 3) gold_table = None /\
  render_int (-4, 0) gold_table = None.
Proof.
  repeat split; try reflexivity. vm_compute. discriminate.
Qed.

(** ** The rows outside the range *)

(** X7: a render reads the rows of the selected range only: two tables
    whose dates increase strictly, with the same labels, the same dates
    and the same cells in the rows [start .. end], give the same figure
    and the same label. *)
Theorem render_reads_window_only (t1 t2 : DataFrame) (r : nat * nat) :
  strictly_increasing (index t1) = true ->
  strictly_increasing (index t2) = true ->
  valid_range r t1 -> valid_range r t2 ->
  window r (index t1) = window r (index t2) ->
  List.map (fun c : Column => (fst c, window r (snd c))) (columns t1)
  = List.map (fun c : Column => (fst c, window r (snd c))) (columns t2) ->
  render r t1 = render r t2.
Proof.
  intros Hs1 Hs2 [Hr Hl1] [_ Hl2] Hidx Hcols.
  destruct (lookup_lt_is_Some_2 (index t1) (fst r) ltac:(lia)) as [ds1 Hds1].
  destruct (lookup_lt_is_Some_2 (index t1) (snd r) ltac:(lia)) as [de1 Hde1].
  destruct (lookup_lt_is_Some_2 (index t2) (fst r) ltac:(lia)) as [ds2 Hds2].
  destruct (lookup_lt_is_Some_2 (index t2) (snd r) ltac:(lia)) as [de2 Hde2].
  assert (ds1 = ds2) as <-.
  { pose proof (window_lookup r (index t1) 0 Hr ltac:(lia)) as H1.
    pose proof (window_lookup r (index t2) 0 Hr ltac:(lia)) as H2.
    rewrite Nat.add_0_r in H1, H2. rewrite Hidx, H2, Hds2, Hds1 in H1.
    congruence. }
  assert (de1 = de2) as <-.
  { pose proof (window_lookup r (index t1) (snd r - fst r) Hr ltac:(lia)) as H1.
    pose proof (window_lookup r (index t2) (snd r - fst r) Hr ltac:(lia)) as H2.
    replace (fst r + (snd r - fst r))%nat with (snd r) in H1, H2 by lia.
    rewrite Hidx, H2, Hde2, Hde1 in H1. congruence. }
  rewrite !render_render_value. unfold render_value, date_list.
  rewrite Hds1, Hde1, Hds2, Hde2.
  rewrite (loc_slice_window t1 r ds1 de1 Hs1 Hds1 Hde1).
  rewrite (loc_slice_window t2 r ds1 de1 Hs2 Hds2 Hde2).
  rewrite Hidx, Hcols. reflexivity.
Qed.

Lemma render_reads_window_only_witness :
  render (1, 2)%nat gold_table
  = render (1, 2)%nat
           (mkFrame [mkTimestamp 2020 1 1; d28; d29]
                    [("Gold", [F64.nan; F64.of_Z 110; F64.of_Z 90])]).
Proof.
  apply (render_reads_window_only gold_table
           (mkFrame [mkTimestamp 2020 1 1; d28; d29]
                    [("Gold", [F64.nan; F64.of_Z 110; F64.of_Z 90])])
           (1, 2)%nat);
    try reflexivity; unfold valid_range; cbn; lia.
Defined.

(** ** Rounding never produces NaN *)

Module F64Rounding.

Lemma shr_1_nonneg (mrs : shr_record) : 0 <= shr_m mrs -> 0 <= shr_m (shr_1 mrs).
Proof.
  destruct mrs as [m r s]. cbn [shr_m].
  destruct m as [|p|p]; intros H; [reflexivity| |lia].
  destruct p; cbn; lia.
Qed.

Lemma iter_pos_nonneg (n : positive) (mrs : shr_record) :
  0 <= shr_m mrs -> 0 <= shr_m (iter_pos shr_1 n mrs).
Proof.
  revert mrs. induction n as [n IH|n IH|]; intros mrs H; cbn [iter_pos].
  - apply IH, IH, shr_1_nonneg, H.
  - apply IH, IH, H.
  - apply shr_1_nonneg, H.
Qed.

Lemma shr_fexp_nonneg (m e : Z) (l : location) :
  0 <= m -> 0 <= shr_m (fst (shr_fexp F64.prec F64.emax m e l)).
Proof.
  intros H. unfold shr_fexp, shr.
  assert (Hrec : 0 <= shr_m (shr_record_of_loc m l)).
  { destruct l as [|[]]; exact H. }
  destruct (fexp F64.prec F64.emax (Zdigits2 m + e) - e); cbn [fst];
    [exact Hrec | apply iter_pos_nonneg; exact Hrec | exact Hrec].
Qed.

Lemma round_nearest_even_nonneg (m : Z) (l : location) :
  0 <= m -> 0 <= round_nearest_even m l.
Proof.
  intros H. destruct l as [|[]]; cbn; try destruct (Z.even m); lia.
Qed.

Lemma binary_round_aux_not_nan (s : bool) (m e : Z) (l : location) :
  0 <= m -> F64.is_nan (binary_round_aux F64.prec F64.emax s m e l) = false.
Proof.
  intros H. unfold binary_round_aux.
  pose proof (shr_fexp_nonneg m e l H) as H1.
  destruct (shr_fexp F64.prec F64.emax m e l) as [mrs' e']. cbn [fst] in H1.
  pose proof (shr_fexp_nonneg _ e' loc_Exact
                (round_nearest_even_nonneg _ (loc_of_shr_record mrs') H1)) as H2.
  destruct (shr_fexp F64.prec F64.emax
              (round_nearest_even (shr_m mrs') (loc_of_shr_record mrs')) e' loc_Exact)
    as [mrs'' e'']. cbn [fst] in H2.
  destruct (shr_m mrs'') as [|p|p]; [reflexivity| |lia].
  destruct (e'' <=? F64.emax - F64.prec); reflexivity.
Qed.

Lemma binary_normalize_not_nan (m e : Z) (szero : bool) :
  F64.is_nan (binary_normalize F64.prec F64.emax m e szero) = false.
Proof.
  unfold binary_normalize, binary_round.
  destruct m as [|p|p]; [reflexivity| |].
  - destruct (shl_align p e _) as [mz ez]. apply binary_round_aux_not_nan. lia.
  - destruct (shl_align p e _) as [mz ez]. apply binary_round_aux_not_nan. lia.
Qed.

Lemma div_not_nan (x y : float) :
  F64.is_nan x = false -> F64.is_number y = true ->
  F64.is_nan (F64.div x y) = false.
Proof.
  destruct y as [| | |sy my ey]; try discriminate. intros Hx _.
  destruct x as [sx|sx| |sx mx ex]; try discriminate; try reflexivity.
  unfold F64.div, SFdiv, SFdiv_core_binary.
  match goal with
  | |- context [IntDef.Z.div_eucl ?a ?b] =>
      pose proof (Z.div_pos a b) as Hq;
      change IntDef.Z.div_eucl with Z.div_eucl;
      unfold Z.div in Hq; destruct (Z.div_eucl a b) as [q r] eqn:Hqr;
      cbn [fst] in Hq
  end.
  apply binary_round_aux_not_nan. apply Hq; [|lia].
  match goal with
  | |- 0 <= match ?s with _ => _ end => destruct s
  end; try lia.
  apply Z.shiftl_nonneg. lia.
Qed.

Lemma sub_not_nan (x y : float) :
  F64.is_nan x = false -> F64.is_number y = true ->
  F64.is_nan (F64.sub x y) = false.
Proof.
  destruct y as [| | |sy my ey]; try discriminate. intros Hx _.
  destruct x as [sx|sx| |sx mx ex]; try discriminate; try reflexivity.
  unfold F64.sub, SFsub. apply binary_normalize_not_nan.
Qed.

Lemma mul_not_nan (x y : float) :
  F64.is_nan x = false -> F64.is_number y = true ->
  F64.is_nan (F64.mul x y) = false.
Proof.
  destruct y as [| | |sy my ey]; try discriminate. intros Hx _.
  destruct x as [sx|sx| |sx mx ex]; try discriminate; try reflexivity.
  unfold F64.mul, SFmul. apply binary_round_aux_not_nan. lia.
Qed.

End F64Rounding.

(** Over a baseline that is a number, a cell is missing exactly when the
    price is. *)
Lemma perf_cell_nan_iff (v b : float) :
  F64.is_number b = true -> F64.is_nan (perf_cell v b) = F64.is_nan v.
Proof.
  intros Hb. destruct (F64.is_nan v) eqn:Hv.
  - destruct v; try discriminate. reflexivity.
  - unfold perf_cell.
    apply F64Rounding.mul_not_nan; [|reflexivity].
    apply F64Rounding.sub_not_nan; [|reflexivity].
    apply F64Rounding.div_not_nan; assumption.
Qed.

Lemma perf_cell_zero_price (s : bool) (b : float) :
  F64.is_number b = true ->
  perf_cell (S754_zero s) b = F64.of_Z (-100).
Proof.
  destruct b as [| | |sb m e]; try discriminate. intros _.
  destruct s, sb; reflexivity.
Qed.

(** ** The lines of a column with a price at the start *)

Lemma render_line (table : DataFrame) (r : nat * nat) (k : nat) (c : Column)
      (b : float) :
  price_table table = true -> valid_range r table ->
  columns table !! k = Some c -> snd c !! fst r = Some b ->
  exists (fig : Figure) (label : Html) (line : Trace),
    render r table = Some (fig, label) /\
    traces fig !! k = Some line /\
    trace_name line = fst c /\
    trace_y line = List.map (fun v => perf_cell v b) (window r (snd c)).
Proof.
  intros Hpt Hvalid Hc Hb.
  destruct (render_lines table r Hpt Hvalid)
    as (ds & de & fig & _ & _ & Hrender & _ & Htraces).
  exists fig, (range_text_of ds de), (line_of r table c).
  split; [exact Hrender|].
  rewrite Htraces, lookup_map, Hc. split; [reflexivity|]. split; [reflexivity|].
  destruct Hvalid as [Hr _].
  destruct (line_of_first table r c b Hr Hb) as [-> _]. reflexivity.
Qed.

(** X8: on a price table and a valid range, in a column whose price at
    [start_index] is a finite number other than zero, a value of the line
    is missing exactly where the price of that row is missing, and a price
    of zero gives exactly [-100.0]. *)
Theorem line_follows_prices (table : DataFrame) (r : nat * nat) (k : nat)
        (c : Column) (b : float) :
  price_table table = true -> valid_range r table ->
  columns table !! k = Some c -> snd c !! fst r = Some b ->
  F64.is_number b = true ->
  exists (fig : Figure) (label : Html) (line : Trace),
    render r table = Some (fig, label) /\
    traces fig !! k = Some line /\
    length (trace_y line) = S (snd r - fst r) /\
    forall (j : nat) (v : float),
      (j <= snd r - fst r)%nat -> snd c !! (fst r + j)%nat = Some v ->
      exists y : float,
        trace_y line !! j = Some y /\
        F64.is_nan y = F64.is_nan v /\
        (F64.is_zero v = true -> y = F64.of_Z (-100)).
Proof.
  intros Hpt Hvalid Hc Hb Hnum.
  destruct (render_line table r k c b Hpt Hvalid Hc Hb)
    as (fig & label & line & Hrender & Hline & _ & Hy).
  exists fig, label, line. split; [exact Hrender|]. split; [exact Hline|].
  destruct (price_table_inv _ Hpt) as (Hwf & _ & _).
  destruct Hvalid as [Hr Hl].
  assert (Hlen : length (snd c) = length (index table)).
  { unfold frame_wf in Hwf. rewrite List.Forall_forall in Hwf. apply Hwf.
    apply list_elem_of_In. eapply list_elem_of_lookup_2. exact Hc. }
  rewrite Hy. split.
  { rewrite List.length_map. apply window_length; [exact Hr | lia]. }
  intros j v Hj Hv. exists (perf_cell v b).
  rewrite lookup_map, (window_lookup r (snd c) j Hr Hj), Hv.
  split; [reflexivity|]. split; [apply perf_cell_nan_iff; exact Hnum|].
  intros Hz. destruct v; try discriminate.
  apply perf_cell_zero_price. exact Hnum.
Qed.

Lemma line_follows_prices_witness :
  exists (fig : Figure) (label : Html) (line : Trace),
    render (1, 2)%nat zero_table = Some (fig, label) /\
    traces fig !! 1%nat = Some line /\
    length (trace_y line) = S (snd (1, 2) - fst (1, 2))%nat /\
    forall (j : nat) (v : float),
      (j <= snd (1, 2) - fst (1, 2))%nat ->
      snd ("Token", [F64.of_Z 0; F64.of_Z 5; F64.of_Z 0]) !! (fst (1, 2) + j)%nat
      = Some v ->
      exists y : float,
        trace_y line !! j = Some y /\
        F64.is_nan y = F64.is_nan v /\
        (F64.is_zero v = true -> y = F64.of_Z (-100)).
Proof.
  apply (line_follows_prices zero_table (1, 2)%nat 1%nat
           ("Token", [F64.of_Z 0; F64.of_Z 5; F64.of_Z 0]) (F64.of_Z 5)).
  - reflexivity.
  - unfold valid_range; cbn; lia.
  - reflexivity.
  - reflexivity.
  - reflexivity.
Defined.

Lemma prepare_sorted_price_table (data : DataFrame) :
  frame_wfb data = true -> strictly_increasing (index data) = true ->
  distinct (List.map fst (columns data)) = true ->
  price_table (prepare data) = true.
Proof.
  intros Hwfb Hs Hd. pose proof (frame_wfb_wf _ Hwfb) as Hwf.
  rewrite (prepare_sorted data Hwf Hs). unfold price_table.
  rewrite (frame_wf_wfb _ (ffill_wf data Hwf)).
  unfold dropna_all, ffill. cbn [index columns]. rewrite Hs. cbn [andb].
  match goal with
  | |- distinct (List.map _ (List.filter ?f _)) = true =>
      apply (distinct_filter f)
  end.
  rewrite List.map_map. exact Hd.
Qed.

(** X9: preparation and render together: on the table prepared from a
    frame whose dates are in order, a column that has a price (a finite
    number other than zero) at [start_index] gives a line without any
    missing value over the whole selected range. *)
Theorem prepared_line_has_no_gap (data : DataFrame) (r : nat * nat) (k : nat)
        (c : Column) (b : float) :
  frame_wfb data = true -> strictly_increasing (index data) = true ->
  distinct (List.map fst (columns data)) = true ->
  valid_range r (prepare data) ->
  columns (prepare data) !! k = Some c -> snd c !! fst r = Some b ->
  F64.is_number b = true ->
  exists (fig : Figure) (label : Html) (line : Trace),
    render r (prepare data) = Some (fig, label) /\
    traces fig !! k = Some line /\
    trace_name line = fst c /\
    length (trace_y line) = S (snd r - fst r) /\
    forall y : float, In y (trace_y line) -> F64.is_nan y = false.
Proof.
  intros Hwfb Hs Hd Hvalid Hc Hb Hnum.
  pose proof (prepare_sorted_price_table data Hwfb Hs Hd) as Hpt.
  destruct (render_line (prepare data) r k c b Hpt Hvalid Hc Hb)
    as (fig & label & line & Hrender & Hline & Hname & Hy).
  exists fig, label, line.
  split; [exact Hrender|]. split; [exact Hline|]. split; [exact Hname|].
  destruct (price_table_inv _ Hpt) as (Hwf' & _ & _).
  pose proof Hvalid as [Hr Hl].
  assert (Hin : In c (columns (prepare data))).
  { apply list_elem_of_In. eapply list_elem_of_lookup_2. exact Hc. }
  assert (Hlen : length (snd c) = length (index (prepare data))).
  { unfold frame_wf in Hwf'. rewrite List.Forall_forall in Hwf'.
    apply Hwf'. exact Hin. }
  rewrite Hy. split.
  { rewrite List.length_map. apply window_length; [exact Hr | lia]. }
  intros y Hyin. apply List.in_map_iff in Hyin as (v & <- & Hv).
  rewrite (perf_cell_nan_iff v b Hnum).
  apply list_elem_of_In, list_elem_of_lookup_1 in Hv as [j Hj].
  assert (Hjle : (j <= snd r - fst r)%nat).
  { apply lookup_lt_Some in Hj.
    rewrite window_length in Hj; [lia | exact Hr | lia]. }
  rewrite (window_lookup r (snd c) j Hr Hjle) in Hj.
  destruct j as [|j].
  - rewrite Nat.add_0_r, Hb in Hj. injection Hj as <-.
    destruct b; try discriminate. reflexivity.
  - rewrite (prepare_sorted data (frame_wfb_wf _ Hwfb) Hs) in Hin.
    unfold dropna_all in Hin. cbn [columns] in Hin.
    apply List.filter_In in Hin as [Hin _].
    eapply (ffill_leaves_gaps data c (fst r) (fst r + S j)); try eassumption.
    + lia.
    + destruct b; try discriminate. reflexivity.
Qed.

Lemma prepared_line_has_no_gap_witness :
  exists (fig : Figure) (label : Html) (line : Trace),
    render (1, 2)%nat (prepare late_raw) = Some (fig, label) /\
    traces fig !! 1%nat = Some line /\
    trace_name line = fst ("Solana", [F64.nan; F64.of_Z 5; F64.of_Z 6]) /\
    length (trace_y line) = S (snd (1, 2) - fst (1, 2))%nat /\
    forall y : float, In y (trace_y line) -> F64.is_nan y = false.
Proof.
  apply (prepared_line_has_no_gap late_raw (1, 2)%nat 1%nat
           ("Solana", [F64.nan; F64.of_Z 5; F64.of_Z 6]) (F64.of_Z 5)).
  - reflexivity.
  - reflexivity.
  - reflexivity.
  - unfold valid_range; cbn; lia.
  - reflexivity.
  - reflexivity.
  - reflexivity.
Defined.

(** ** The layout of the figure *)

Lemma unique_assets_any (idx : list Timestamp) (cs : list Column) :
  idx <> [] ->
  Forall (fun c : Column => length (snd c) = length idx) cs ->
  unique (List.map Asset (melt (mkFrame idx cs))) = unique (List.map fst cs).
Proof.
  intros Hne Hwf. induction Hwf as [|c cs Hc Hwf IH]; [reflexivity|].
  rewrite melt_cons, List.map_app, assets_long_rows.
  assert (exists n, length (List.combine idx (snd c)) = S n) as [n ->].
  { rewrite List.length_combine, Hc, Nat.min_id.
    destruct idx; [contradiction | eexists; reflexivity]. }
  rewrite unique_repeat_app, IH. reflexivity.
Qed.

Lemma chart_of_layout (start_date : Timestamp) (d : DataFrame) :
  template (chart_of start_date d) = "plotly_dark" /\
  yaxis_ticksuffix (chart_of start_date d) = "%" /\
  hovermode (chart_of start_date d) = "x unified" /\
  legend_title_text (chart_of start_date d) = "Assets" /\
  margin (chart_of start_date d) = Some (mkMargin 20 20 60 20) /\
  hlines (chart_of start_date d)
  = match unique (List.map Asset (melt d)) with
    | [] => []
    | _ :: _ => [mkHLine 0 "dash" "gray"]
    end.
Proof.
  unfold chart_of, update_layout, add_hline, update_yaxes, update_traces, px_line.
  cbn [traces hlines title template yaxis_ticksuffix hovermode legend_title_text
              margin].
  destruct (unique (List.map Asset (melt d))); cbn; repeat split.
Qed.

(** X10: whatever the store holds besides the table, on a table with one
    cell per date in every column and strictly increasing dates, the
    figure that the callback returns on a valid range has the title
    "Performance from" followed by the start date as [YYYY-MM-DD], the
    dark template, the tick suffix "%", the unified hover mode, the legend
    title "Assets", the margins 20, 20, 60, 20 and the same hover text on
    every line: the updates made in place after [px.line] reach the
    returned figure. It has one dashed gray horizontal line at 0 when the
    table has a column, and none when it has no column (the figure has no
    line then, and [add_hline] skips an empty figure). *)
Theorem figure_layout (st : store) (data : ref) (table : DataFrame)
        (r : nat * nat) (start_date : Timestamp) :
  st !! data = Some (ObjFrame table) ->
  frame_wfb table = true ->
  strictly_increasing (index table) = true -> valid_range r table ->
  index table !! fst r = Some start_date ->
  exists (fig : Figure) (label : Html),
    outputs (update_graph data r st) = Some (fig, label) /\
    title fig = "Performance from " +:+ strftime_Ymd start_date /\
    is_Ymd (strftime_Ymd start_date) = true /\
    template fig = "plotly_dark" /\
    hlines fig = match columns table with
                 | [] => []
                 | _ :: _ => [mkHLine 0 "dash" "gray"]
                 end /\
    yaxis_ticksuffix fig = "%" /\
    hovermode fig = "x unified" /\
    legend_title_text fig = "Assets" /\
    margin fig = Some (mkMargin 20 20 60 20) /\
    forall line : Trace, In line (traces fig) ->
      hovertemplate line = "%{y:.2f}%<br>%{x|%Y-%m-%d}".
Proof.
  intros Hdata Hwfb Hs Hvalid Hstart. pose proof Hvalid as [Hr Hl].
  pose proof (frame_wfb_wf _ Hwfb) as Hwf.
  destruct (lookup_lt_is_Some_2 (index table) (snd r) ltac:(lia)) as [de Hde].
  rewrite (update_graph_outputs st data table r Hdata).
  unfold render_value, date_list.
  rewrite Hstart, Hde, (loc_slice_window _ _ _ _ Hs Hstart Hde).
  rewrite rebase_columns by (apply window_nonempty; assumption).
  cbn [index columns].
  eexists _, _. split; [reflexivity|].
  destruct (chart_of_layout start_date
              (mkFrame (window r (index table))
                       (List.map rebased_column
                          (List.map (fun c : Column => (fst c, window r (snd c)))
                                    (columns table)))))
    as (Htemplate & Hticks & Hhover & Hlegend & Hmargin & Hlines).
  split; [apply title_chart_of|]. split; [apply strftime_Ymd_form|].
  split; [exact Htemplate|].
  split.
  { rewrite Hlines, unique_assets_any.
    - rewrite !List.map_map. cbn [rebased_column fst].
      destruct (columns table); reflexivity.
    - apply window_nonempty; assumption.
    - unfold frame_wf in Hwf. rewrite !List.Forall_map.
      eapply Forall_impl; [exact Hwf|].
      intros c Hc. cbn [rebased_column fst snd] in *.
      rewrite List.length_map, !window_length; [reflexivity| | | |]; lia. }
  split; [exact Hticks|]. split; [exact Hhover|]. split; [exact Hlegend|].
  split; [exact Hmargin|].
  intros line Hline. rewrite traces_chart_of in Hline.
  apply List.in_map_iff in Hline as (tr & <- & _). reflexivity.
Qed.

Lemma figure_layout_witness :
  exists (fig : Figure) (label : Html),
    outputs (update_graph 1%nat (1, 2)%nat [ObjSeries []; ObjFrame gold_table])
    = Some (fig, label) /\
    title fig = "Performance from " +:+ strftime_Ymd d28 /\
    is_Ymd (strftime_Ymd d28) = true /\
    template fig = "plotly_dark" /\
    hlines fig = match columns gold_table with
                 | [] => []
                 | _ :: _ => [mkHLine 0 "dash" "gray"]
                 end /\
    yaxis_ticksuffix fig = "%" /\
    hovermode fig = "x unified" /\
    legend_title_text fig = "Assets" /\
    margin fig = Some (mkMargin 20 20 60 20) /\
    forall line : Trace, In line (traces fig) ->
      hovertemplate line = "%{y:.2f}%<br>%{x|%Y-%m-%d}".
Proof.
  apply (figure_layout [ObjSeries []; ObjFrame gold_table] 1%nat gold_table
                       (1, 2)%nat d28).
  - reflexivity.
  - reflexivity.
  - reflexivity.
  - unfold valid_range; cbn; lia.
  - reflexivity.
Defined.

(** On the table without columns the figure has no line of either kind. *)
Example figure_without_columns :
  option_map (fun out => (traces (fst out), hlines (fst out)))
             (render (0, 2)%nat no_columns_table)
  = Some ([], []).
Proof. reflexivity. Qed.

(** ** The long frame and the lines *)

(** X11: [melt] followed by [px.line] loses and merges nothing: for a
    frame with at least one row, one cell per date in every column and
    pairwise different labels, the long frame has one row per cell and
    the figure has one line per column, in the order of the columns, with
    the label, the dates and the cells of the column. *)
Theorem melt_px_line_round_trip (d : DataFrame) (title template : string) :
  index d <> [] -> frame_wfb d = true ->
  distinct (List.map fst (columns d)) = true ->
  length (melt d) = (length (columns d) * length (index d))%nat /\
  List.map (fun tr => (trace_name tr, trace_x tr, trace_y tr))
           (traces (px_line (melt d) title template))
  = List.map (fun c : Column => (fst c, index d, snd c)) (columns d).
Proof.
  intros Hne Hwfb Hd. pose proof (frame_wfb_wf _ Hwfb) as Hwf.
  destruct d as [idx cs]. cbn [index columns] in *.
  unfold frame_wf in Hwf. cbn [index columns] in Hwf.
  split.
  - unfold melt. cbn [index columns].
    apply List.flat_map_constant_length. intros c Hc.
    rewrite List.Forall_forall in Hwf.
    rewrite List.length_map, List.length_combine, (Hwf c Hc). apply Nat.min_id.
  - unfold px_line. cbn [traces]. rewrite List.map_map.
    cbn [trace_name trace_x trace_y].
    rewrite (unique_assets idx cs Hne Hwf Hd), List.map_map.
    apply List.map_ext_in. intros c Hc.
    rewrite (rows_of_melt idx cs c Hd Hc).
    rewrite List.Forall_forall in Hwf.
    rewrite dates_long_rows, performance_long_rows by (apply Hwf; exact Hc).
    reflexivity.
Qed.

Lemma melt_px_line_round_trip_witness :
  length (melt late_table)
  = (length (columns late_table) * length (index late_table))%nat /\
  List.map (fun tr => (trace_name tr, trace_x tr, trace_y tr))
           (traces (px_line (melt late_table) "t" "plotly_dark"))
  = List.map (fun c : Column => (fst c, index late_table, snd c)) (columns late_table).
Proof.
  apply (melt_px_line_round_trip late_table "t" "plotly_dark").
  - discriminate.
  - reflexivity.
  - reflexivity.
Defined.

(** Two columns under one label are drawn as one line. *)
Example px_line_merges_equal_labels :
  List.map (fun tr => (trace_name tr, trace_y tr))
           (traces (px_line (melt (mkFrame [d27; d28]
                                           [("Gold", [F64.of_Z 1; F64.of_Z 2]);
                                            ("Gold", [F64.of_Z 3; F64.of_Z 4])]))
                            "t" "plotly_dark"))
  = [("Gold", [F64.of_Z 1; F64.of_Z 2; F64.of_Z 3; F64.of_Z 4])].
Proof. reflexivity. Qed.

(** ** The instruments and the downloaded frame *)

Lemma distinct_NoDup (names : list string) : distinct names = true <-> NoDup names.
Proof.
  induction names as [|a names IH]; cbn [distinct].
  - split; [constructor | reflexivity].
  - rewrite NoDup_cons, andb_true_iff, negb_true_iff, IH.
    apply and_iff_compat_r. split.
    + intros H Hin. apply (existsb_eqb_false _ _ H). apply list_elem_of_In. exact Hin.
    + intros H. destruct (existsb (String.eqb a) names) eqn:He; [|reflexivity].
      exfalso. apply H. apply List.existsb_exists in He as (b & Hb & Heq).
      apply String.eqb_eq in Heq. subst b. apply list_elem_of_In. exact Hb.
Qed.

Lemma combine_swap (tk : list (string * string)) :
  List.combine (List.map snd tk) (List.map fst tk)
  = List.map (fun p => (snd p, fst p)) tk.
Proof. induction tk as [|p tk IH]; cbn; [reflexivity | rewrite IH; reflexivity]. Qed.

Lemma symbol_to_name_lookup (tk : list (string * string)) (name symbol : string) :
  distinct (List.map snd tk) = true -> In (name, symbol) tk ->
  symbol_to_name tk !! symbol = Some name.
Proof.
  intros Hd Hin. unfold symbol_to_name, dict. rewrite combine_swap.
  apply elem_of_list_to_map_1.
  - rewrite fmap_reverse. rewrite reverse_Permutation.
    change (fmap fst (List.map (fun p : string * string => (snd p, fst p)) tk))
      with (List.map fst (List.map (fun p : string * string => (snd p, fst p)) tk)).
    rewrite List.map_map. cbn [fst]. apply distinct_NoDup. exact Hd.
  - apply elem_of_reverse. apply list_elem_of_In.
    apply List.in_map_iff. exists (name, symbol). split; [reflexivity | exact Hin].
Qed.

Lemma symbol_to_name_absent (tk : list (string * string)) (label : string) :
  ~ In label (List.map snd tk) -> symbol_to_name tk !! label = None.
Proof.
  intros Hnot. unfold symbol_to_name, dict. rewrite combine_swap.
  apply not_elem_of_list_to_map_1.
  rewrite fmap_reverse, elem_of_reverse.
  change (fmap fst (List.map (fun p : string * string => (snd p, fst p)) tk))
    with (List.map fst (List.map (fun p : string * string => (snd p, fst p)) tk)).
  rewrite List.map_map. cbn [fst]. intros H. apply Hnot.
  apply list_elem_of_In. exact H.
Qed.

(** X12: for a dict of instruments whose symbols are pairwise different,
    the dict of line 31 is its inverse: it maps the symbol of every
    instrument to its display name, and holds no other key. *)
Theorem symbol_to_name_inverts (tk : list (string * string)) :
  distinct (List.map snd tk) = true ->
  (forall name symbol, In (name, symbol) tk ->
                       symbol_to_name tk !! symbol = Some name) /\
  (forall label name, symbol_to_name tk !! label = Some name ->
                      In (name, label) tk).
Proof.
  intros Hd. split.
  - intros name symbol. apply symbol_to_name_lookup. exact Hd.
  - intros label name H.
    destruct (List.in_dec String.string_dec label (List.map snd tk)) as [Hin|Hnot].
    + apply List.in_map_iff in Hin as ([name' symbol] & <- & Hin). cbn [snd] in *.
      rewrite (symbol_to_name_lookup tk name' symbol Hd Hin) in H.
      injection H as <-. exact Hin.
    + rewrite (symbol_to_name_absent tk label Hnot) in H. discriminate.
Qed.

Lemma symbol_to_name_inverts_witness :
  (forall name symbol, In (name, symbol) tickers ->
                       symbol_to_name tickers !! symbol = Some name) /\
  (forall label name, symbol_to_name tickers !! label = Some name ->
                      In (name, label) tickers).
Proof.
  apply (symbol_to_name_inverts tickers). reflexivity.
Defined.

Lemma rename_label (tk : list (string * string)) (label : string) :
  distinct (List.map snd tk) = true ->
  In label (List.map snd tk) ->
  exists name, In (name, label) tk /\ symbol_to_name tk !! label = Some name.
Proof.
  intros Hd Hin. apply List.in_map_iff in Hin as ([name symbol] & <- & Hin).
  exists name. split; [exact Hin | apply symbol_to_name_lookup; assumption].
Qed.

Lemma rename_display_names (tk : list (string * string)) (d : DataFrame) :
  distinct (List.map fst tk) = true ->
  distinct (List.map snd tk) = true ->
  distinct (List.map fst (columns d)) = true ->
  (forall c : Column, In c (columns d) -> In (fst c) (List.map snd tk)) ->
  index (rename (symbol_to_name tk) d) = index d /\
  List.map snd (columns (rename (symbol_to_name tk) d)) = List.map snd (columns d) /\
  Forall2 (fun c' c : Column => In (fst c', fst c) tk)
          (columns (rename (symbol_to_name tk) d)) (columns d) /\
  distinct (List.map fst (columns (rename (symbol_to_name tk) d))) = true.
Proof.
  intros Hnames Hsymbols Hlabels Hall.
  unfold rename. cbn [index columns].
  split; [reflexivity|].
  split; [rewrite List.map_map; reflexivity|].
  split.
  - induction (columns d) as [|c cs IH]; [constructor|].
    cbn [List.map]. constructor.
    + destruct (rename_label tk (fst c) Hsymbols (Hall c (or_introl eq_refl)))
        as (name & Hin & ->). exact Hin.
    + apply IH; [|intros c' Hc'; apply Hall; right; exact Hc'].
      cbn [List.map distinct] in Hlabels. apply andb_prop in Hlabels. tauto.
  - rewrite List.map_map. cbn [fst]. apply distinct_NoDup.
    change (NoDup ((fun c : Column =>
                      match symbol_to_name tk !! fst c with
                      | Some new_label => new_label
                      | None => fst c
                      end) <$> columns d)).
    apply NoDup_fmap_2_strong.
    + intros c1 c2 H1 H2 Heq. apply list_elem_of_In in H1, H2.
      destruct (rename_label tk (fst c1) Hsymbols (Hall c1 H1)) as (n1 & Hin1 & E1).
      destruct (rename_label tk (fst c2) Hsymbols (Hall c2 H2)) as (n2 & Hin2 & E2).
      rewrite E1, E2 in Heq. subst n2.
      assert (Hsame : fst c1 = fst c2).
      { apply distinct_NoDup in Hnames.
        clear -Hnames Hin1 Hin2.
        induction tk as [|[n s] tk IH]; [destruct Hin1|].
        cbn [List.map fst] in Hnames. apply NoDup_cons in Hnames as [Hn Hnames].
        destruct Hin1 as [E1|Hin1], Hin2 as [E2|Hin2].
        - congruence.
        - injection E1 as -> ->. exfalso. apply Hn. apply list_elem_of_In.
          apply List.in_map_iff. exists (n1, fst c2). split; [reflexivity | exact Hin2].
        - injection E2 as -> ->. exfalso. apply Hn. apply list_elem_of_In.
          apply List.in_map_iff. exists (n1, fst c1). split; [reflexivity | exact Hin1].
        - apply IH; assumption. }
      apply distinct_NoDup in Hlabels.
      clear -Hlabels H1 H2 Hsame.
      induction (columns d) as [|c cs IH]; [destruct H1|].
      cbn [List.map] in Hlabels. apply NoDup_cons in Hlabels as [Hc Hlabels].
      destruct H1 as [->|H1], H2 as [->|H2].
      * reflexivity.
      * exfalso. apply Hc. rewrite Hsame. apply list_elem_of_In.
        apply List.in_map. exact H2.
      * exfalso. apply Hc. rewrite <- Hsame. apply list_elem_of_In.
        apply List.in_map. exact H1.
      * apply IH; assumption.
    + clear -Hlabels. apply distinct_NoDup in Hlabels.
      induction (columns d) as [|c cs IH]; [constructor|].
      cbn [List.map] in Hlabels. apply NoDup_cons in Hlabels as [Hc Hlabels].
      apply NoDup_cons. split; [|apply IH; exact Hlabels].
      intros Hin. apply Hc. apply list_elem_of_In. apply List.in_map.
      apply list_elem_of_In. exact Hin.
Qed.

(** X13: [rename] with the inverse dict, on a frame whose labels are
    pairwise different symbols of the instruments: the index and the cells
    are unchanged, every label becomes the display name of its symbol, and
    the new labels are pairwise different when the display names are. *)
Theorem rename_to_display_names (tk : list (string * string)) (d : DataFrame) :
  distinct (List.map fst tk) = true ->
  distinct (List.map snd tk) = true ->
  distinct (List.map fst (columns d)) = true ->
  (forall c : Column, In c (columns d) -> In (fst c) (List.map snd tk)) ->
  index (rename (symbol_to_name tk) d) = index d /\
  List.map snd (columns (rename (symbol_to_name tk) d)) = List.map snd (columns d) /\
  Forall2 (fun c' c : Column => In (fst c', fst c) tk)
          (columns (rename (symbol_to_name tk) d)) (columns d) /\
  distinct (List.map fst (columns (rename (symbol_to_name tk) d))) = true.
Proof. apply rename_display_names. Qed.

Lemma rename_to_display_names_witness :
  index (rename (symbol_to_name tickers)
                (mkFrame [d27; d28] [("SOL-USD", [F64.nan; F64.of_Z 5]);
                                     ("GC=F", [F64.of_Z 100; F64.of_Z 90])]))
  = [d27; d28] /\
  List.map snd (columns (rename (symbol_to_name tickers)
                (mkFrame [d27; d28] [("SOL-USD", [F64.nan; F64.of_Z 5]);
                                     ("GC=F", [F64.of_Z 100; F64.of_Z 90])])))
  = [[F64.nan; F64.of_Z 5]; [F64.of_Z 100; F64.of_Z 90]] /\
  Forall2 (fun c' c : Column => In (fst c', fst c) tickers)
          (columns (rename (symbol_to_name tickers)
                (mkFrame [d27; d28] [("SOL-USD", [F64.nan; F64.of_Z 5]);
                                     ("GC=F", [F64.of_Z 100; F64.of_Z 90])])))
          [("SOL-USD", [F64.nan; F64.of_Z 5]); ("GC=F", [F64.of_Z 100; F64.of_Z 90])] /\
  distinct (List.map fst (columns (rename (symbol_to_name tickers)
                (mkFrame [d27; d28] [("SOL-USD", [F64.nan; F64.of_Z 5]);
                                     ("GC=F", [F64.of_Z 100; F64.of_Z 90])]))))
  = true.
Proof.
  apply (rename_to_display_names tickers
           (mkFrame [d27; d28] [("SOL-USD", [F64.nan; F64.of_Z 5]);
                                ("GC=F", [F64.of_Z 100; F64.of_Z 90])])).
  - reflexivity.
  - reflexivity.
  - reflexivity.
  - intros c [<-|[<-|[]]]; cbn; tauto.
Defined.

Lemma filter_nil_existsb {A} (f : A -> bool) (xs : list A) :
  List.filter f xs = [] <-> existsb f xs = false.
Proof.
  induction xs as [|a xs IH]; cbn; [tauto|].
  destruct (f a); cbn; [split; discriminate | exact IH].
Qed.

Lemma select_close_none (raw : RawFrame) :
  select_close raw = None <-> has_close raw = false.
Proof.
  unfold select_close, has_close. destruct (raw_columns raw) as [cols|cols].
  - rewrite <- filter_nil_existsb.
    destruct (List.filter _ cols); split; intros H; try reflexivity; discriminate.
  - rewrite <- filter_nil_existsb.
    destruct (List.filter _ cols); split; intros H; try reflexivity; discriminate.
Qed.

Lemma prepare_labels (d : DataFrame) (c : Column) :
  In c (columns (prepare d)) -> In (fst c) (List.map fst (columns d)).
Proof.
  unfold prepare, sort_index, dropna_all, ffill. cbn [index columns]. intros H.
  apply List.in_map_iff in H as (c1 & <- & H). cbn [fst].
  apply List.filter_In in H as [H _].
  apply List.in_map_iff in H as (c0 & <- & H). cbn [fst].
  apply List.in_map. exact H.
Qed.

Lemma tickers_no_close : symbol_to_name tickers !! "Close" = None.
Proof.
  apply symbol_to_name_absent. cbn. intros H.
  repeat (destruct H as [H|H]; [discriminate H|]). exact H.
Qed.

(** X14: the script stops with a [KeyError] exactly when the downloaded
    frame has no column of the field 'Close'. When the columns are not a
    [MultiIndex] (line 28), the column kept is labelled 'Close', which is
    no symbol of the instruments: the table then has the label 'Close',
    not a display name. *)
Theorem load_data_close (raw : RawFrame) :
  (load_data raw = None <-> has_close raw = false) /\
  (forall (cols : list (string * list float)) (table : DataFrame),
      raw_columns raw = FlatIndex cols -> load_data raw = Some table ->
      forall c : Column, In c (columns table) -> fst c = "Close").
Proof.
  split.
  - rewrite <- select_close_none. unfold load_data.
    destruct (select_close raw); split; intros H; try reflexivity; discriminate.
  - intros cols table Hflat Hload c Hc.
    unfold load_data, select_close in Hload. rewrite Hflat in Hload.
    destruct (List.filter (fun c => String.eqb (fst c) "Close") cols)
      as [|c0 sel] eqn:Hsel; [discriminate|].
    injection Hload as <-.
    apply prepare_labels in Hc. unfold rename in Hc. cbn [columns] in Hc.
    rewrite List.map_map in Hc. cbn [fst] in Hc.
    apply List.in_map_iff in Hc as (c1 & <- & Hc1).
    assert (Hlabel : fst c1 = "Close").
    { rewrite <- Hsel in Hc1. apply List.filter_In in Hc1 as [_ H].
      apply String.eqb_eq. exact H. }
    rewrite Hlabel, tickers_no_close. reflexivity.
Qed.

Lemma frame_wfb_rename (mapping : gmap string string) (d : DataFrame) :
  frame_wfb (rename mapping d) = frame_wfb d.
Proof.
  unfold frame_wfb, rename. cbn [index columns].
  induction (columns d) as [|c cs IH]; [reflexivity|].
  cbn [List.map forallb snd]. rewrite IH. reflexivity.
Qed.

(** X15: lines 25-35 together: when the columns of the field 'Close' have
    one cell per date, pairwise different dates and pairwise different
    symbols, all of them symbols of the instruments, the script obtains a
    price table (one cell per date, dates strictly increasing, unique
    labels) whose labels are display names of the instruments and whose
    dates are those of the download. *)
Theorem load_data_price_table (raw : RawFrame) (data : DataFrame) :
  select_close raw = Some data ->
  frame_wfb data = true ->
  distinct_dates (index data) = true ->
  distinct (List.map fst (columns data)) = true ->
  (forall c : Column, In c (columns data) -> In (fst c) (List.map snd tickers)) ->
  exists table : DataFrame,
    load_data raw = Some table /\
    price_table table = true /\
    Permutation (index table) (raw_index raw) /\
    forall c : Column, In c (columns table) -> In (fst c) (List.map fst tickers).
Proof.
  intros Hsel Hwfb Hdates Hlabels Hsymbols.
  unfold load_data. rewrite Hsel. eexists. split; [reflexivity|].
  destruct (rename_display_names tickers data eq_refl eq_refl Hlabels Hsymbols)
    as (Hidx & _ & Hnames & Hdistinct).
  split.
  { apply prepare_makes_price_table.
    - rewrite frame_wfb_rename. exact Hwfb.
    - exact Hdates.
    - exact Hdistinct. }
  split.
  { destruct (sort_index_sorts_sorted_perm
                (dropna_all (ffill (rename (symbol_to_name tickers) data))))
      as [_ Hp].
    unfold prepare. rewrite Hp. cbn [index dropna_all ffill rename].
    unfold select_close in Hsel.
    destruct (raw_columns raw) as [cols|cols];
      destruct (List.filter _ cols); try discriminate;
      injection Hsel as <-; reflexivity. }
  intros c Hc. apply prepare_labels in Hc.
  apply List.in_map_iff in Hc as (c1 & <- & Hc1).
  apply list_elem_of_In, list_elem_of_lookup_1 in Hc1 as [k Hk].
  destruct (Forall2_lookup_l _ _ _ _ _ Hnames Hk) as (c0 & _ & Hin).
  apply List.in_map_iff. exists (fst c1, fst c0). split; [reflexivity | exact Hin].
Qed.

Lemma load_data_price_table_witness :
  exists table : DataFrame,
    load_data raw_download = Some table /\
    price_table table = true /\
    Permutation (index table) (raw_index raw_download) /\
    forall c : Column, In c (columns table) -> In (fst c) (List.map fst tickers).
Proof.
  apply (load_data_price_table raw_download
           (mkFrame [d27; d28; d29]
                    [("GC=F", [F64.of_Z 100; F64.nan; F64.of_Z 90]);
                     ("SOL-USD", [F64.nan; F64.of_Z 5; F64.of_Z 6])])).
  - reflexivity.
  - reflexivity.
  - reflexivity.
  - reflexivity.
  - intros c [<-|[<-|[]]]; cbn; tauto.
Defined.

(** ** The range slider *)

Lemma window_full {A} (xs : list A) (n : nat) :
  length xs = S n -> window (0%nat, n) xs = xs.
Proof.
  intros H. unfold window, slice. cbn [fst snd List.skipn].
  rewrite Nat.sub_0_r, <- H. apply List.firstn_all.
Qed.

(** X16: the slider of lines 80-89 and the callback. On a price table
    with at least one row, the slider starts on the pair [(0, last)];
    every pair of handles it can hold (within its bounds, not crossed) is
    a valid range on which the callback returns; and the first render, on
    the starting pair, draws every line over all the dates of the table.
    On a table without rows the bounds are [0] and [-1], the slider can
    hold no pair, and the callback raises on every range. *)
Theorem slider_ranges (table : DataFrame) :
  price_table table = true ->
  let slider := date_range_slider (date_list table) in
  (index table <> [] ->
   slider_value slider = (0, Z.of_nat (length (index table)) - 1) /\
   slider_holds slider (slider_value slider) /\
   (forall v : Z * Z, slider_holds slider v ->
      valid_range (Z.to_nat (fst v), Z.to_nat (snd v)) table /\
      exists (fig : Figure) (label : Html),
        render (Z.to_nat (fst v), Z.to_nat (snd v)) table = Some (fig, label)) /\
   exists (fig : Figure) (label : Html),
     render (Z.to_nat (fst (slider_value slider)),
             Z.to_nat (snd (slider_value slider))) table = Some (fig, label) /\
     length (traces fig) = length (columns table) /\
     forall line : Trace, In line (traces fig) -> trace_x line = index table) /\
  (index table = [] ->
   slider_max slider = -1 /\
   (forall v : Z * Z, ~ slider_holds slider v) /\
   forall r : nat * nat, render r table = None).
Proof.
  intros Hpt slider. subst slider. unfold date_range_slider, date_list.
  cbn [slider_value slider_max slider_min].
  split.
  - intros Hne.
    assert (Hlen : (0 < length (index table))%nat).
    { destruct (index table); [contradiction | cbn; lia]. }
    split; [reflexivity|].
    split.
    { unfold slider_holds. cbn [slider_min slider_max allowCross fst snd]. lia. }
    assert (Hall : forall v : Z * Z,
               slider_holds
                 (mkRangeSlider 0 (Z.of_nat (length (index table)) - 1)
                                (0, Z.of_nat (length (index table)) - 1) false) v ->
               valid_range (Z.to_nat (fst v), Z.to_nat (snd v)) table).
    { intros v (H1 & H2 & H3).
      cbn [slider_min slider_max allowCross] in H1, H2, H3.
      specialize (H3 eq_refl). unfold valid_range. cbn [fst snd]. lia. }
    split.
    { intros v Hv. split; [apply Hall; exact Hv|].
      destruct (render_lines table _ Hpt (Hall v Hv))
        as (ds & de & fig & _ & _ & H & _).
      eauto. }
    cbn [fst snd].
    assert (Hvalid : valid_range
                       (Z.to_nat 0, Z.to_nat (Z.of_nat (length (index table)) - 1))
                       table).
    { unfold valid_range. cbn [fst snd]. lia. }
    destruct (render_lines table _ Hpt Hvalid)
      as (ds & de & fig & _ & _ & Hrender & _ & Htraces).
    exists fig, (range_text_of ds de). split; [exact Hrender|].
    split; [rewrite Htraces; apply List.length_map|].
    intros line Hline. rewrite Htraces in Hline.
    apply List.in_map_iff in Hline as (c & <- & _).
    cbn [line_of trace_x]. change (Z.to_nat 0) with 0%nat.
    apply window_full. lia.
  - intros Hnil. rewrite Hnil. cbn [length].
    split; [reflexivity|].
    split.
    { intros v (H1 & H2 & H3). cbn [slider_min slider_max] in H1, H2. lia. }
    intros r. rewrite render_render_value. unfold render_value, date_list.
    rewrite Hnil. reflexivity.
Qed.

Lemma slider_ranges_witness :
  let slider := date_range_slider (date_list gold_table) in
  (index gold_table <> [] ->
   slider_value slider = (0, Z.of_nat (length (index gold_table)) - 1) /\
   slider_holds slider (slider_value slider) /\
   (forall v : Z * Z, slider_holds slider v ->
      valid_range (Z.to_nat (fst v), Z.to_nat (snd v)) gold_table /\
      exists (fig : Figure) (label : Html),
        render (Z.to_nat (fst v), Z.to_nat (snd v)) gold_table = Some (fig, label)) /\
   exists (fig : Figure) (label : Html),
     render (Z.to_nat (fst (slider_value slider)),
             Z.to_nat (snd (slider_value slider))) gold_table = Some (fig, label) /\
     length (traces fig) = length (columns gold_table) /\
     forall line : Trace, In line (traces fig) -> trace_x line = index gold_table) /\
  (index gold_table = [] ->
   slider_max slider = -1 /\
   (forall v : Z * Z, ~ slider_holds slider v) /\
   forall r : nat * nat, render r gold_table = None).
Proof.
  apply (slider_ranges gold_table). reflexivity.
Defined.

(** ** Lines and labels *)

Lemma distinct_filter_names (f : string -> bool) (names : list string) :
  distinct names = true -> distinct (List.filter f names) = true.
Proof.
  rewrite !distinct_NoDup. intros H.
  change (List.filter f names) with (List.filter f names).
  induction names as [|a names IH]; [constructor|].
  apply NoDup_cons in H as [Ha H]. cbn [List.filter].
  destruct (f a); [|apply IH; exact H].
  apply NoDup_cons. split; [|apply IH; exact H].
  intros Hin. apply Ha. apply list_elem_of_In.
  apply list_elem_of_In, List.filter_In in Hin. tauto.
Qed.

Lemma distinct_unique (names : list string) : distinct (unique names) = true.
Proof.
  induction names as [|a names IH]; [reflexivity|].
  cbn [unique distinct]. apply andb_true_intro. split.
  - apply negb_true_iff.
    destruct (existsb (String.eqb a) _) eqn:He; [|reflexivity].
    apply List.existsb_exists in He as (b & Hb & Heq).
    apply List.filter_In in Hb as [_ Hb]. rewrite Heq in Hb. discriminate.
  - apply distinct_filter_names. exact IH.
Qed.

(** X17: for any frame with at least one row and one cell per date in
    every column, also with repeated labels, [px.line] on the long frame
    draws one line per different label, in order of first appearance: no
    two lines of the chart have the same name. *)
Theorem px_line_names (d : DataFrame) (title template : string) :
  index d <> [] -> frame_wfb d = true ->
  List.map trace_name (traces (px_line (melt d) title template))
  = unique (List.map fst (columns d)) /\
  distinct (List.map trace_name (traces (px_line (melt d) title template))) = true /\
  forall label : string,
    In label (List.map fst (columns d)) <->
    In label (List.map trace_name (traces (px_line (melt d) title template))).
Proof.
  intros Hne Hwfb. pose proof (frame_wfb_wf _ Hwfb) as Hwf.
  destruct d as [idx cs]. cbn [index columns] in *.
  unfold frame_wf in Hwf. cbn [index columns] in Hwf.
  assert (Hnames : List.map trace_name (traces (px_line (melt (mkFrame idx cs))
                                                        title template))
                   = unique (List.map fst cs)).
  { unfold px_line. cbn [traces]. rewrite List.map_map. cbn [trace_name].
    rewrite List.map_id. apply unique_assets_any; assumption. }
  rewrite Hnames. split; [reflexivity|]. split; [apply distinct_unique|].
  intros label. split; [|apply unique_subset].
  generalize (List.map fst cs). intros names Hin.
  induction names as [|a names IH]; [destruct Hin|].
  cbn [unique]. destruct (String.eqb_spec a label) as [->|Hne'].
  - left. reflexivity.
  - right. apply List.filter_In. split.
    + apply IH. destruct Hin as [->|Hin]; [contradiction | exact Hin].
    + apply negb_true_iff. apply String.eqb_neq. exact Hne'.
Qed.

Lemma px_line_names_witness :
  List.map trace_name
           (traces (px_line (melt (mkFrame [d27; d28]
                                           [("Gold", [F64.of_Z 1; F64.of_Z 2]);
                                            ("Gold", [F64.of_Z 3; F64.of_Z 4])]))
                            "t" "plotly_dark"))
  = unique (List.map fst [("Gold", [F64.of_Z 1; F64.of_Z 2]);
                          ("Gold", [F64.of_Z 3; F64.of_Z 4])]) /\
  distinct (List.map trace_name
           (traces (px_line (melt (mkFrame [d27; d28]
                                           [("Gold", [F64.of_Z 1; F64.of_Z 2]);
                                            ("Gold", [F64.of_Z 3; F64.of_Z 4])]))
                            "t" "plotly_dark"))) = true /\
  forall label : string,
    In label (List.map fst [("Gold", [F64.of_Z 1; F64.of_Z 2]);
                            ("Gold", [F64.of_Z 3; F64.of_Z 4])]) <->
    In label (List.map trace_name
           (traces (px_line (melt (mkFrame [d27; d28]
                                           [("Gold", [F64.of_Z 1; F64.of_Z 2]);
                                            ("Gold", [F64.of_Z 3; F64.of_Z 4])]))
                            "t" "plotly_dark"))).
Proof.
  apply (px_line_names (mkFrame [d27; d28]
                                [("Gold", [F64.of_Z 1; F64.of_Z 2]);
                                 ("Gold", [F64.of_Z 3; F64.of_Z 4])])
                       "t" "plotly_dark").
  - discriminate.
  - reflexivity.
Defined.
